(** * Weekend helper agent: the tool-calling control loop

    A shallow embedding of [agent_fun.py] (the decision parser [llm_json],
    the sanitizer [to_plain_text], the summarizer [summarize_tool_result]
    and the loop of [main]) and of the tool table of [server_fun.py],
    followed by the properties of the control loop.

    Modelling choices.
    - A Python [str] is a Rocq [string] holding its UTF-8 encoding.
    - The values produced by [json.loads] are the inductive type
      [Json.value]; a [dict] is an association list in insertion order
      with unique keys, because [json.dumps] prints in that order.
    - The language model, the tool host and the wording of the messages
      of exceptions raised inside the Python runtime are the [World]: the
      replies are indexed by the number of calls made before, so a world
      is one possible behaviour of the surroundings and a statement
      quantified over worlds covers all of them.
    - Console output is not modelled; the history and the calls made to the
      model and to the tool host are. *)

From Stdlib Require Import String Ascii List ZArith NArith Bool Lia.
From Stdlib Require Import DecimalString.
Import ListNotations.
Open Scope string_scope.

(** ** Python strings *)

Module PyStr.

Definition code (c : ascii) : N := N_of_ascii c.
Definition chr (n : N) : ascii := ascii_of_N n.

(** The double quote character, and a string between double quotes. *)
Definition DQ : ascii := chr 34.
Definition dq (s : string) : string := String DQ (s ++ String DQ "").

(** [js] writes a JSON document with single quotes in place of double
    quotes: [js "{'a':1}"] is the text [{"a":1}]. *)
Fixpoint js (s : string) : string :=
  match s with
  | "" => ""
  | String c r => String (if (code c =? 39)%N then DQ else c) (js r)
  end.

Definition snoc (s : string) (c : ascii) : string := s ++ String c "".

Definition rev_string (s : string) : string :=
  string_of_list_ascii (rev (list_ascii_of_string s)).

Definition in_range (lo hi : N) (c : ascii) : bool :=
  ((lo <=? code c) && (code c <=? hi))%N.

(** The characters [str.strip()] removes: the ASCII ones are tab, line
    feed, vertical tab, form feed, carriage return, the separators
    0x1c-0x1f and the space; the others are given by their UTF-8
    encodings (U+0085, U+00A0; U+1680, U+2000-U+200A, U+2028, U+2029,
    U+202F, U+205F, U+3000). *)
Definition ascii_space (c : ascii) : bool :=
  in_range 9 13 c || in_range 28 32 c.

Definition space2 (a b : ascii) : bool :=
  (code a =? 194)%N && ((code b =? 133) || (code b =? 160))%N.

Definition space3 (a b c : ascii) : bool :=
  ((code a =? 225) && (code b =? 154) && (code c =? 128))%N
  || ((code a =? 226) && (code b =? 128)
      && (in_range 128 138 c || in_range 168 169 c || (code c =? 175)))%N
  || ((code a =? 226) && (code b =? 129) && (code c =? 159))%N
  || ((code a =? 227) && (code b =? 128) && (code c =? 128))%N.

(** Drops the leading whitespace; with [flip] the string is read backwards
    (the bytes of a character arrive last byte first). *)
Fixpoint drop_space (flip : bool) (s : string) : string :=
  match s with
  | "" => ""
  | String c1 r1 =>
      if ascii_space c1 then drop_space flip r1
      else
        match r1 with
        | String c2 r2 =>
            if (if flip then space2 c2 c1 else space2 c1 c2)
            then drop_space flip r2
            else
              match r2 with
              | String c3 r3 =>
                  if (if flip then space3 c3 c2 c1 else space3 c1 c2 c3)
                  then drop_space flip r3
                  else s
              | "" => s
              end
        | "" => s
        end
  end.

Definition lstrip (s : string) : string := drop_space false s.
Definition rstrip (s : string) : string :=
  rev_string (drop_space true (rev_string s)).

(** [s.strip()] *)
Definition strip (s : string) : string := rstrip (lstrip s).

(** [s.lower()].  The ASCII capitals are lowered; so are the two other
    characters whose lower case has an ASCII letter: the Kelvin sign U+212A
    (to k) and U+0130 (to i followed by U+0307).  Any other character is
    left as it is: its lower case is not ASCII either, so a comparison with
    a word of ASCII letters is not affected. *)
Fixpoint lower (s : string) : string :=
  match s with
  | "" => ""
  | String c r =>
      if in_range 65 90 c then String (chr (code c + 32)) (lower r)
      else
        match r with
        | String c2 r2 =>
            if ((code c =? 196) && (code c2 =? 176))%N
            then String "i" (String (chr 204) (String (chr 135) (lower r2)))
            else
              match r2 with
              | String c3 r3 =>
                  if ((code c =? 226) && (code c2 =? 132) && (code c3 =? 170))%N
                  then String "k" (lower r3)
                  else String c (lower r)
              | "" => String c (lower r)
              end
        | "" => String c (lower r)
        end
  end.

(** [needle in hay] *)
Fixpoint contains (needle hay : string) : bool :=
  prefix needle hay
  || match hay with
     | "" => false
     | String _ r => contains needle r
     end.

(** [x in l] for a collection of strings. *)
Definition mem (x : string) (l : list string) : bool :=
  existsb (String.eqb x) l.

(** [str(n)] for an integer. *)
Definition of_Z (z : Z) : string := NilZero.string_of_int (Z.to_int z).

(** UTF-8 encoding of a code point and decoding of a string. *)
Definition utf8_encode (n : N) : string :=
  (if n <? 128 then String (chr n) ""
   else if n <? 2048 then
     String (chr (192 + n / 64)) (String (chr (128 + n mod 64)) "")
   else if n <? 65536 then
     String (chr (224 + n / 4096))
       (String (chr (128 + (n / 64) mod 64)) (String (chr (128 + n mod 64)) ""))
   else
     String (chr (240 + n / 262144))
       (String (chr (128 + (n / 4096) mod 64))
          (String (chr (128 + (n / 64) mod 64))
             (String (chr (128 + n mod 64)) ""))))%N.

Fixpoint utf8_decode (s : string) : list N :=
  match s with
  | "" => []
  | String c r =>
      let n := code c in
      if (n <? 192)%N then n :: utf8_decode r
      else
        match r with
        | "" => [n]
        | String c2 r2 =>
            let n2 := (code c2 mod 64)%N in
            if (n <? 224)%N then ((n mod 32) * 64 + n2)%N :: utf8_decode r2
            else
              match r2 with
              | "" => [n]
              | String c3 r3 =>
                  let n3 := (code c3 mod 64)%N in
                  if (n <? 240)%N
                  then ((n mod 16) * 4096 + n2 * 64 + n3)%N :: utf8_decode r3
                  else
                    match r3 with
                    | "" => [n]
                    | String c4 r4 =>
                        ((n mod 8) * 262144 + n2 * 4096 + n3 * 64
                         + code c4 mod 64)%N :: utf8_decode r4
                    end
              end
        end
  end.

Definition hex_digit (n : N) : ascii :=
  if (n <? 10)%N then chr (48 + n) else chr (87 + n).

Definition hex2 (n : N) : string :=
  String (hex_digit ((n / 16) mod 16)) (String (hex_digit (n mod 16)) "").

Definition hex4 (n : N) : string :=
  hex2 ((n / 256) mod 256) ++ hex2 (n mod 256).

End PyStr.

(** ** JSON values, [json.loads] and [json.dumps] *)

Module Json.
Import PyStr.

(** What [json.loads] builds.  A number with a fraction or an exponent, and
    the constants NaN, Infinity and -Infinity, are Python floats: they are
    kept as their literal, and floating-point arithmetic is not modelled. *)
#[local] Set Warnings "-register-all".
Inductive value : Type :=
| JNull
| JBool (b : bool)
| JInt (n : Z)
| JFloat (literal : string)
| JStr (s : string)
| JArr (items : list value)
| JObj (members : list (string * value)).

Definition dict : Type := list (string * value).

(** [d.get(k)] on the members of a dict. *)
Fixpoint lookup (k : string) (d : dict) : option value :=
  match d with
  | [] => None
  | (k', v) :: r => if String.eqb k k' then Some v else lookup k r
  end.

(** [d[k] = v]: a key already present keeps its place. *)
Fixpoint dict_set (d : dict) (k : string) (v : value) : dict :=
  match d with
  | [] => [(k, v)]
  | (k', v') :: r =>
      if String.eqb k k' then (k', v) :: r else (k', v') :: dict_set r k v
  end.

(** The name of the Python type of a value. *)
Definition type_name (v : value) : string :=
  match v with
  | JNull => "NoneType"
  | JBool _ => "bool"
  | JInt _ => "int"
  | JFloat _ => "float"
  | JStr _ => "str"
  | JArr _ => "list"
  | JObj _ => "dict"
  end.

(** *** Lexer *)

Inductive token : Type :=
| TLBrace | TRBrace | TLBracket | TRBracket | TColon | TComma
| TString (s : string)
| TAtom (lexeme : string).

Inductive lex_state : Type :=
| Gap
| Atom (acc : string)
| Str (acc : string).

(** Characters of numbers and of the constants. *)
Definition atom_char (c : ascii) : bool :=
  in_range 48 57 c || in_range 65 90 c || in_range 97 122 c
  || (code c =? 43)%N || (code c =? 45)%N || (code c =? 46)%N.

(** Whitespace of the JSON grammar: space, tab, line feed, carriage
    return. *)
Definition json_space (c : ascii) : bool :=
  ((code c =? 32) || (code c =? 9) || (code c =? 10) || (code c =? 13))%N.

(** Between tokens: the token a character gives, and the state after it. *)
Definition gap_step (c : ascii) : option (option token * lex_state) :=
  if json_space c then Some (None, Gap)
  else if (code c =? 34)%N then Some (None, Str "")
  else if atom_char c then Some (None, Atom (String c ""))
  else
    match c with
    | "{"%char => Some (Some TLBrace, Gap)
    | "}"%char => Some (Some TRBrace, Gap)
    | "["%char => Some (Some TLBracket, Gap)
    | "]"%char => Some (Some TRBracket, Gap)
    | ":"%char => Some (Some TColon, Gap)
    | ","%char => Some (Some TComma, Gap)
    | _ => None
    end.

Definition emit (t : option token) (k : option (list token))
  : option (list token) :=
  match t with
  | Some x => option_map (cons x) k
  | None => k
  end.

(** The character a one-letter escape stands for. *)
Definition simple_escape (e : ascii) : option ascii :=
  match e with
  | "\"%char => Some "\"%char
  | "/"%char => Some "/"%char
  | "b"%char => Some (chr 8)
  | "f"%char => Some (chr 12)
  | "n"%char => Some (chr 10)
  | "r"%char => Some (chr 13)
  | "t"%char => Some (chr 9)
  | _ => if (code e =? 34)%N then Some DQ else None
  end.

Definition hex_value (c : ascii) : option N :=
  if in_range 48 57 c then Some (code c - 48)%N
  else if in_range 97 102 c then Some (code c - 87)%N
  else if in_range 65 70 c then Some (code c - 55)%N
  else None.

Definition hex4_value (a b c d : ascii) : option N :=
  match hex_value a, hex_value b, hex_value c, hex_value d with
  | Some x, Some y, Some z, Some w => Some (x * 4096 + y * 256 + z * 16 + w)%N
  | _, _, _, _ => None
  end.

(** A high surrogate followed by the escape of a low one is one code
    point. *)
Definition surrogate_pair (hi : N) (b u k1 k2 k3 k4 : ascii) : option N :=
  if ((55296 <=? hi) && (hi <=? 56319))%N
     && Ascii.eqb b "\" && Ascii.eqb u "u"
  then
    match hex4_value k1 k2 k3 k4 with
    | Some lo =>
        if ((56320 <=? lo) && (lo <=? 57343))%N
        then Some (65536 + (hi - 55296) * 1024 + (lo - 56320))%N
        else None
    | None => None
    end
  else None.

Fixpoint lex (st : lex_state) (s : string) : option (list token) :=
  match st, s with
  | Gap, "" => Some []
  | Atom acc, "" => Some [TAtom acc]
  | Str _, "" => None
  | Gap, String c r =>
      match gap_step c with
      | Some (t, st') => emit t (lex st' r)
      | None => None
      end
  | Atom acc, String c r =>
      if atom_char c then lex (Atom (snoc acc c)) r
      else
        match gap_step c with
        | Some (t, st') => option_map (cons (TAtom acc)) (emit t (lex st' r))
        | None => None
        end
  | Str acc, String c r =>
      if (code c =? 34)%N then option_map (cons (TString acc)) (lex Gap r)
      else if Ascii.eqb c "\" then
        match r with
        | "" => None
        | String e r1 =>
            match simple_escape e with
            | Some x => lex (Str (snoc acc x)) r1
            | None =>
                if Ascii.eqb e "u" then
                  match r1 with
                  | String h1 (String h2 (String h3 (String h4 r2))) =>
                      match hex4_value h1 h2 h3 h4 with
                      | None => None
                      | Some n =>
                          match r2 with
                          | String b (String u (String k1 (String k2
                              (String k3 (String k4 r3))))) =>
                              match surrogate_pair n b u k1 k2 k3 k4 with
                              | Some p => lex (Str (acc ++ utf8_encode p)) r3
                              | None => lex (Str (acc ++ utf8_encode n)) r2
                              end
                          | _ => lex (Str (acc ++ utf8_encode n)) r2
                          end
                      end
                  | _ => None
                  end
                else None
            end
        end
      else if (code c <? 32)%N then None
      else lex (Str (snoc acc c)) r
  end.

(** *** Numbers and constants *)

Definition is_digit (c : ascii) : bool := in_range 48 57 c.

(** The leading digits of a string, and what follows them. *)
Fixpoint span_digits (s : string) : string * string :=
  match s with
  | String c r =>
      if is_digit c
      then let (d, rest) := span_digits r in (String c d, rest)
      else ("", s)
  | "" => ("", "")
  end.

Fixpoint digits_value (acc : Z) (s : string) : Z :=
  match s with
  | "" => acc
  | String c r => digits_value (10 * acc + Z.of_N (code c - 48)) r
  end.

(** The integer part: a single 0, or digits that do not start with 0. *)
Definition int_part_ok (ip : string) : bool :=
  match ip with
  | "" => false
  | String "0" "" => true
  | String c _ => negb (Ascii.eqb c "0")
  end.

(** An exponent, or nothing. *)
Definition exponent_ok (s : string) : bool :=
  match s with
  | "" => true
  | String c r =>
      (Ascii.eqb c "e" || Ascii.eqb c "E")
      && let body :=
           match r with
           | String "+" r' => r'
           | String "-" r' => r'
           | _ => r
           end in
         let (ep, rest) := span_digits body in
         negb (String.eqb ep "") && String.eqb rest ""
  end.

(** A number of the JSON grammar: an int when it has neither fraction nor
    exponent, a float otherwise. *)
Definition number_value (lexeme : string) : option value :=
  let (neg, body) :=
    match lexeme with
    | String "-" r => (true, r)
    | _ => (false, lexeme)
    end in
  let (ip, r1) := span_digits body in
  if negb (int_part_ok ip) then None
  else
    match r1 with
    | "" => Some (JInt (if neg then - digits_value 0 ip else digits_value 0 ip))
    | String "." r2 =>
        let (fp, r3) := span_digits r2 in
        if negb (String.eqb fp "") && exponent_ok r3
        then Some (JFloat lexeme) else None
    | _ => if exponent_ok r1 then Some (JFloat lexeme) else None
    end.

Definition atom_value (lexeme : string) : option value :=
  if String.eqb lexeme "null" then Some JNull
  else if String.eqb lexeme "true" then Some (JBool true)
  else if String.eqb lexeme "false" then Some (JBool false)
  else if String.eqb lexeme "NaN" || String.eqb lexeme "Infinity"
          || String.eqb lexeme "-Infinity" then Some (JFloat lexeme)
  else number_value lexeme.

(** *** Parser: a stack machine over the tokens *)

(** An enclosing container being filled: an array with the items read so
    far, or an object with its members and the key whose value is being
    read. *)
Inductive frame : Type :=
| FArr (items : list value)
| FObj (members : dict) (key : string).

Inductive parse_state : Type :=
| PValue (stack : list frame)
| PArrFirst (stack : list frame)
| PObjFirst (stack : list frame)
| PKey (members : dict) (stack : list frame)
| PColon (members : dict) (key : string) (stack : list frame)
| PAfter (v : value) (stack : list frame).

(** A token where a value starts. *)
Definition start_value (t : token) (stack : list frame) : option parse_state :=
  match t with
  | TString s => Some (PAfter (JStr s) stack)
  | TAtom a => option_map (fun v => PAfter v stack) (atom_value a)
  | TLBracket => Some (PArrFirst stack)
  | TLBrace => Some (PObjFirst stack)
  | _ => None
  end.

Definition parse_step (st : parse_state) (t : token) : option parse_state :=
  match st with
  | PValue stack => start_value t stack
  | PArrFirst stack =>
      match t with
      | TRBracket => Some (PAfter (JArr []) stack)
      | _ => start_value t (FArr [] :: stack)
      end
  | PObjFirst stack =>
      match t with
      | TRBrace => Some (PAfter (JObj []) stack)
      | TString k => Some (PColon [] k stack)
      | _ => None
      end
  | PKey members stack =>
      match t with
      | TString k => Some (PColon members k stack)
      | _ => None
      end
  | PColon members k stack =>
      match t with
      | TColon => Some (PValue (FObj members k :: stack))
      | _ => None
      end
  | PAfter v [] => None
  | PAfter v (FArr items :: stack) =>
      match t with
      | TComma => Some (PValue (FArr (items ++ [v]) :: stack))
      | TRBracket => Some (PAfter (JArr (items ++ [v])) stack)
      | _ => None
      end
  | PAfter v (FObj members k :: stack) =>
      match t with
      | TComma => Some (PKey (dict_set members k v) stack)
      | TRBrace => Some (PAfter (JObj (dict_set members k v)) stack)
      | _ => None
      end
  end.

Fixpoint parse (st : parse_state) (ts : list token) : option value :=
  match ts with
  | [] =>
      match st with
      | PAfter v [] => Some v
      | _ => None
      end
  | t :: r =>
      match parse_step st t with
      | Some st' => parse st' r
      | None => None
      end
  end.

(** [json.loads(s)]: [None] when it raises [json.JSONDecodeError]. *)
Definition loads (s : string) : option value :=
  match lex Gap s with
  | Some ts => parse (PValue []) ts
  | None => None
  end.

(** *** Printing *)

(** One code point inside a string printed by [json.dumps], which escapes
    everything outside the printable ASCII range. *)
Definition dumps_char (n : N) : string :=
  if (n =? 34)%N then String "\" (String DQ "")
  else if (n =? 92)%N then "\\"
  else if (n =? 10)%N then "\n"
  else if (n =? 13)%N then "\r"
  else if (n =? 9)%N then "\t"
  else if (n =? 8)%N then "\b"
  else if (n =? 12)%N then "\f"
  else if ((32 <=? n) && (n <=? 126))%N then String (chr n) ""
  else if (n <? 65536)%N then "\u" ++ hex4 n
  else
    let m := (n - 65536)%N in
    "\u" ++ hex4 (55296 + m / 1024) ++ "\u" ++ hex4 (56320 + m mod 1024).

Definition dumps_string (s : string) : string :=
  dq (String.concat "" (map dumps_char (utf8_decode s))).

(** [json.dumps(v)] with the default separators. *)
Fixpoint dumps (v : value) : string :=
  match v with
  | JNull => "null"
  | JBool true => "true"
  | JBool false => "false"
  | JInt n => of_Z n
  | JFloat l => l
  | JStr s => dumps_string s
  | JArr items => "[" ++ String.concat ", " (map dumps items) ++ "]"
  | JObj members =>
      "{" ++ String.concat ", "
               (map (fun kv => let '(k, x) := kv in
                               dumps_string k ++ ": " ++ dumps x) members)
          ++ "}"
  end.

(** [repr(s)] of a string: single quotes unless the string has one and has
    no double quote; the backslash, the chosen quote and the control
    characters are escaped.  Characters outside ASCII are printed as they
    are. *)
Definition repr_char (quote : ascii) (c : ascii) : string :=
  if Ascii.eqb c quote || Ascii.eqb c "\" then String "\" (String c "")
  else if (code c =? 10)%N then "\n"
  else if (code c =? 13)%N then "\r"
  else if (code c =? 9)%N then "\t"
  else if (code c <? 32)%N || (code c =? 127)%N then "\x" ++ hex2 (code c)
  else String c "".

Definition repr_string (s : string) : string :=
  let quote :=
    if contains "'" s && negb (contains (String DQ "") s) then DQ else "'"%char in
  String quote
    (String.concat "" (map (repr_char quote) (list_ascii_of_string s))
     ++ String quote "").

Definition float_str (l : string) : string :=
  if String.eqb l "NaN" then "nan"
  else if String.eqb l "Infinity" then "inf"
  else if String.eqb l "-Infinity" then "-inf"
  else l.

(** [repr(v)] *)
Fixpoint repr (v : value) : string :=
  match v with
  | JNull => "None"
  | JBool true => "True"
  | JBool false => "False"
  | JInt n => of_Z n
  | JFloat l => float_str l
  | JStr s => repr_string s
  | JArr items => "[" ++ String.concat ", " (map repr items) ++ "]"
  | JObj members =>
      "{" ++ String.concat ", "
               (map (fun kv => let '(k, x) := kv in
                               repr_string k ++ ": " ++ repr x) members)
          ++ "}"
  end.

(** [str(v)], which is what an f-string prints. *)
Definition str (v : value) : string :=
  match v with
  | JStr s => s
  | _ => repr v
  end.

(** A float literal whose digits before the exponent are all 0. *)
Fixpoint zero_mantissa (l : string) : bool :=
  match l with
  | "" => true
  | String c r =>
      if Ascii.eqb c "e" || Ascii.eqb c "E" then true
      else if in_range 49 57 c || in_range 65 90 c || in_range 97 122 c
      then false
      else zero_mantissa r
  end.

(** [bool(v)] *)
Definition truthy (v : value) : bool :=
  match v with
  | JNull => false
  | JBool b => b
  | JInt n => negb (n =? 0)%Z
  | JFloat l => negb (zero_mantissa l)
  | JStr s => negb (String.eqb s "")
  | JArr items => match items with [] => false | _ => true end
  | JObj members => match members with [] => false | _ => true end
  end.

End Json.


(** ** The agent: [agent_fun.py] *)

Module Agent.
Import PyStr Json.

Definition MODEL : string := "mistral:7b".

Definition SYSTEM : string := js
"You are a cheerful weekend helper.

You have access to external tools.
You MUST use tools to get real data.
You are NOT allowed to invent tool results.

Rules:
1. If information is missing, call the correct tool.
2. Call ONLY ONE tool at a time.
3. After a tool call, wait for the tool result.
4. When all required data is collected, write a FRIENDLY, HUMAN, PLAIN-TEXT response.
5. DO NOT return JSON, lists, or action objects in the final answer.

Tool call format (ONLY this):
{'action':'tool_name','args':{...}}

Final answer format (ONLY this):
{'action':'final','answer':'<plain English text>'}".

(** *** Data *)

Inductive Role : Type := system | user | assistant.

Record message : Type := { role : Role; content : string }.

Definition entry (r : Role) (c : string) : message :=
  {| role := r; content := c |}.

(** The exceptions the agent can meet.  [Exception] stands for whatever the
    model client or the tool session raises, with the text of [str(e)]. *)
Inductive exn : Type :=
| Exception (msg : string)
| JSONDecodeError (doc : string)
| AttributeError (type attr : string)
| KeyError (key : string)
| NotIterable (type : string)
| NotSubscriptable (type : string)
| Unhashable (type : string)
| EOFError.

(** The result of [session.call_tool]: the content blocks, of which only a
    text block has a [text] attribute, and the text that
    [json.dumps(result.model_dump(), ensure_ascii=False)] gives for it. *)
Inductive content_block : Type :=
| TextContent (text : string)
| OtherContent.

Record CallToolResult : Type :=
  { blocks : list content_block; model_dump_json : string }.

Inductive reply (A : Type) : Type :=
| Reply (a : A)
| Failure (e : string).
Arguments Reply {A} a.
Arguments Failure {A} e.

(** The surroundings of the agent.  [chat n messages] is what
    [chat(...)["message"]["content"]] gives on the call that follows [n]
    earlier ones, [call_tool n name args] likewise for
    [session.call_tool]; a [Failure] is an exception of the class
    [Exception], which is what the handlers of the agent catch, with its
    text.
    [list_tools] are the names [session.list_tools()] reports and
    [runtime_message] is the text of a [JSONDecodeError] and of the
    [TypeError] of a bad subscript or of an unhashable element, whose
    wording belongs to the Python version. *)
Record World : Type :=
  { list_tools : list string;
    chat : nat -> list message -> reply string;
    call_tool : nat -> string -> value -> reply CallToolResult;
    runtime_message : exn -> string }.

(** [str(e)] *)
Definition str_exn (w : World) (e : exn) : string :=
  match e with
  | Exception msg => msg
  | AttributeError type attr =>
      "'" ++ type ++ "' object has no attribute '" ++ attr ++ "'"
  | KeyError key => repr_string key
  | NotIterable type => "'" ++ type ++ "' object is not iterable"
  | JSONDecodeError _ | NotSubscriptable _ | Unhashable _ =>
      runtime_message w e
  | EOFError => "EOF when reading a line"
  end.

(** *** State and effects *)

Inductive event : Type :=
| ChatCall (messages : list message)
| ToolCall (name : string) (args : value).

Record State : Type := { history : list message; calls : list event }.

Definition is_chat (e : event) : bool :=
  match e with ChatCall _ => true | ToolCall _ _ => false end.

Definition chat_calls (s : State) : nat := length (filter is_chat (calls s)).
Definition tool_calls (s : State) : nat :=
  length (filter (fun e => negb (is_chat e)) (calls s)).

Inductive result (A : Type) : Type :=
| Returned (a : A) (s : State)
| Raised (e : exn) (s : State).
Arguments Returned {A} a s.
Arguments Raised {A} e s.

Definition state_of {A : Type} (r : result A) : State :=
  match r with
  | Returned _ s => s
  | Raised _ s => s
  end.

Definition M (A : Type) : Type := State -> result A.

Definition ret {A : Type} (a : A) : M A := fun s => Returned a s.

Definition bind {A B : Type} (m : M A) (k : A -> M B) : M B :=
  fun s =>
    match m s with
    | Returned a s' => k a s'
    | Raised e s' => Raised e s'
    end.

Definition raise {A : Type} (e : exn) : M A := fun s => Raised e s.

(** [try: m except Exception as e: handler e] *)
Definition try_except {A : Type} (m : M A) (handler : exn -> M A) : M A :=
  fun s =>
    match m s with
    | Returned a s' => Returned a s'
    | Raised e s' => handler e s'
    end.

Declare Scope agent_scope.
Delimit Scope agent_scope with agent.
Notation "x <- m ;; k" := (bind m (fun x => k))
  (at level 61, m at next level, right associativity) : agent_scope.
Notation "m ;; k" := (bind m (fun _ => k))
  (at level 61, right associativity) : agent_scope.
Open Scope agent_scope.

(** A computation that has no effect is a value or an exception. *)
Notation "x <~ e ;; k" :=
  (match e with
   | inl err => inl err
   | inr x => k
   end)
  (at level 61, e at next level, right associativity) : agent_scope.

Definition lift {A : Type} (r : exn + A) : M A :=
  match r with
  | inl e => raise e
  | inr a => ret a
  end.

Definition get_history : M (list message) := fun s => Returned (history s) s.

(** [history.append({"role": r, "content": c})] *)
Definition history_append (r : Role) (c : string) : M unit :=
  fun s =>
    Returned tt {| history := history s ++ [entry r c]; calls := calls s |}.

Definition record (e : event) (s : State) : State :=
  {| history := history s; calls := calls s ++ [e] |}.

(** [chat(model=MODEL, messages=messages, ...)["message"]["content"]] *)
Definition chat_content (w : World) (messages : list message) : M string :=
  fun s =>
    match chat w (chat_calls s) messages with
    | Reply txt => Returned txt (record (ChatCall messages) s)
    | Failure e => Raised (Exception e) (record (ChatCall messages) s)
    end.

(** [await session.call_tool(name, args)] *)
Definition session_call_tool (w : World) (name : string) (args : value)
  : M CallToolResult :=
  fun s =>
    match call_tool w (tool_calls s) name args with
    | Reply r => Returned r (record (ToolCall name args) s)
    | Failure e => Raised (Exception e) (record (ToolCall name args) s)
    end.

(** *** Values *)

(** [data.get(key, default)]: only a dict has [get]. *)
Definition get (data : value) (key : string) (default : value) : exn + value :=
  match data with
  | JObj d =>
      inr (match lookup key d with
           | Some v => v
           | None => default
           end)
  | _ => inl (AttributeError (type_name data) "get")
  end.

(** [data[key]] with a string for key. *)
Definition getitem (data : value) (key : string) : exn + value :=
  match data with
  | JObj d =>
      match lookup key d with
      | Some v => inr v
      | None => inl (KeyError key)
      end
  | _ => inl (NotSubscriptable (type_name data))
  end.

(** [choices.append(x)] *)
Definition append (choices x : value) : exn + value :=
  match choices with
  | JArr items => inr (JArr (items ++ [x]))
  | _ => inl (AttributeError (type_name choices) "append")
  end.

Definition hashable (v : value) : bool :=
  match v with
  | JArr _ | JObj _ => false
  | _ => true
  end.

(** [list(set(choices))], of which only the failures matter here: the
    elements of a list have to be hashable; a string and a dict can be
    iterated over, nothing else can. *)
Definition list_set (choices : value) : exn + unit :=
  match choices with
  | JArr items =>
      match find (fun x => negb (hashable x)) items with
      | Some x => inl (Unhashable (type_name x))
      | None => inr tt
      end
  | JStr _ | JObj _ => inr tt
  | _ => inl (NotIterable (type_name choices))
  end.

(** [{"action": "final", "answer": text}] *)
Definition final (text : string) : value :=
  JObj [("action", JStr "final"); ("answer", JStr text)].

(** [x == "final"] *)
Definition is_final (x : value) : bool :=
  match x with
  | JStr s => String.eqb s "final"
  | _ => false
  end.

(** *** LLM (safe) *)

Definition llm_json (w : World) (messages : list message) : M value :=
  r <- try_except
         (c <- chat_content w messages ;; ret (inl (strip c)))
         (fun e =>
            ret (inr (final ("Sorry, I had trouble reaching my brain: "
                             ++ str_exn w e)))) ;;
  match r with
  | inr early => ret early
  | inl txt =>
      match loads txt with
      | Some v => ret v
      | None => ret (final txt)
      end
  end.

(** *** Output sanitizer *)

Definition to_plain_text (answer : value) : string :=
  match answer with
  | JStr s => strip s
  | _ => strip (str answer)
  end.

(** *** Tool result summarizer *)

Definition summarize_tool_result (tool_name payload : string) : exn + string :=
  match loads payload with
  | None => inr ("The '" ++ tool_name ++ "' tool returned: " ++ payload)
  | Some data =>
      if String.eqb tool_name "weather" then
        desc <~ get data "description" (JStr "unknown conditions") ;;
        temp <~ get data "temperature" (JStr "??") ;;
        inr ("The current weather is " ++ str desc
             ++ " with a temperature of " ++ str temp ++ "°C.")
      else if String.eqb tool_name "book" then
        title <~ get data "title" (JStr "a great book") ;;
        author <~ get data "author" (JStr "an author") ;;
        inr ("I found a book: '" ++ str title ++ "' by " ++ str author ++ ".")
      else if String.eqb tool_name "joke" then
        joke_text <~ get data "joke"
          (JStr "Why don't skeletons fight each other? They don't have the guts!") ;;
        inr ("Here's a joke: " ++ str joke_text)
      else if String.eqb tool_name "dog" then
        inr "I fetched a cute dog picture for you! 🐶"
      else if String.eqb tool_name "trivia" then
        question <~ get data "question" (JStr "What is the meaning of life?") ;;
        inr ("Trivia question: " ++ str question)
      else
        inr ("Tool '" ++ tool_name ++ "' returned: " ++ dumps data)
  end.

(** *** Main *)

(** [json.loads(payload)] where a failure is caught further up. *)
Definition loads_or_raise (payload : string) : exn + value :=
  match loads payload with
  | Some v => inr v
  | None => inl (JSONDecodeError payload)
  end.

(** The text of the first content block when it has one. *)
Definition first_text (r : CallToolResult) : option string :=
  match blocks r with
  | TextContent t :: _ => Some t
  | _ => None
  end.

(** The part of the trivia handling that prints the question and the
    choices, for the exceptions it can raise; console output is left
    out. *)
Definition print_trivia (data : value) : exn + unit :=
  _ <~ get data "question" (JStr "No question received.") ;;
  choices <~ get data "incorrect_answers" (JArr []) ;;
  correct <~ get data "correct_answer" JNull ;;
  choices <~ (if truthy correct
              then x <~ getitem data "correct_answer" ;; append choices x
              else inr choices) ;;
  list_set choices.

(** The special handling of an input that mentions trivia: the whole body
    is inside one [try]. *)
Definition trivia_turn (w : World) : M unit :=
  try_except
    (result <- session_call_tool w "trivia" (JObj []) ;;
     let payload :=
       match first_text result with
       | Some t => t
       | None => "{}"
       end in
     data <- lift (loads_or_raise payload) ;;
     lift (print_trivia data) ;;
     summary <- lift (summarize_tool_result "trivia" payload) ;;
     history_append user ("[Tool Result] " ++ summary))
    (fun e =>
       let error_msg := "Oops! Trivia failed: " ++ str_exn w e in
       history_append assistant error_msg).

(** How one pass through the body of the [for] loop ends: by falling
    through or [continue], or by [break], which the source always takes
    with [responded = True]. *)
Inductive flow : Type := Continue | Break.

(** The body of [for step in range(8)]. *)
Definition iteration (w : World) (tool_index : list string) : M flow :=
  messages <- get_history ;;
  decision <- llm_json w messages ;;
  action <- lift (get decision "action" JNull) ;;
  if is_final action then
    answer <- lift (get decision "answer" (JStr "")) ;;
    let plain := to_plain_text answer in
    history_append assistant plain ;;
    ret Break
  else
    action <- lift (get decision "action" (JStr "")) ;;
    let tname := strip (str action) in
    args <- lift (get decision "args" (JObj [])) ;;
    if String.eqb tname "" || negb (mem tname tool_index) then
      let error_msg := "Unknown tool: " ++ tname in
      history_append assistant error_msg ;;
      ret Break
    else
      called <- try_except
                  (result <- session_call_tool w tname args ;; ret (Some result))
                  (fun e =>
                     let error_msg :=
                       "Tool '" ++ tname ++ "' failed: " ++ str_exn w e in
                     history_append user ("[Tool Error] " ++ error_msg) ;;
                     ret None) ;;
      match called with
      | None => ret Continue
      | Some result =>
          let payload :=
            match first_text result with
            | Some t => t
            | None => model_dump_json result
            end in
          summary <- lift (summarize_tool_result tname payload) ;;
          history_append user ("[Tool Result] " ++ summary) ;;
          ret Continue
      end.

(** [for step in range(n): body]; the result is [responded]. *)
Fixpoint for_range (n : nat) (body : M flow) : M bool :=
  match n with
  | O => ret false
  | S k =>
      f <- body ;;
      match f with
      | Break => ret true
      | Continue => for_range k body
      end
  end.

Definition COULD_NOT_FINISH : string :=
  "I tried several steps but couldn't finish your request. Could you rephrase?".

(** The general loop of one turn, with the message of the exhausted step
    limit. *)
Definition general_loop (w : World) (tool_index : list string) : M unit :=
  responded <- for_range 8 (iteration w tool_index) ;;
  if negb responded then history_append assistant COULD_NOT_FINISH
  else ret tt.

(** One turn: what the body of [while True] does with an input that does
    not end the session. *)
Definition turn (w : World) (tool_index : list string) (user_input : string)
  : M unit :=
  history_append user user_input ;;
  if contains "trivia" (lower user_input) then trivia_turn w
  else general_loop w tool_index.

(** Whether the stripped input line ends the session. *)
Definition ends_session (user_input : string) : bool :=
  String.eqb user_input "" || mem (lower user_input) ["exit"; "quit"].

(** [while True] over the lines [input] gives; at the end of the input
    [input] raises [EOFError]. *)
Fixpoint session (w : World) (tool_index : list string) (lines : list string)
  : M unit :=
  match lines with
  | [] => raise EOFError
  | line :: rest =>
      let user_input := strip line in
      if ends_session user_input then ret tt
      else turn w tool_index user_input ;; session w tool_index rest
  end.

Definition initial : State :=
  {| history := [entry system SYSTEM]; calls := [] |}.

Definition main (w : World) (lines : list string) : result unit :=
  session w (list_tools w) lines initial.

End Agent.

(** ** The tool host: [server_fun.py] *)

Module Server.
Import PyStr Json.

(** The names under which the tools are registered: the names of the
    decorated functions. *)
Definition tool_names : list string :=
  ["get_weather"; "book_recs"; "random_joke"; "random_dog"; "trivia"].

(** [random_dog] on the answer of the image service. *)
Definition random_dog (data : dict) : value :=
  JObj [("ok", JBool true);
        ("image", match lookup "message" data with
                  | Some v => v
                  | None => JNull
                  end)].

(** One question as the trivia service documents it. *)
Record question : Type :=
  { text : string; incorrect_answers : list string; correct_answer : string }.

Section Trivia.

(** [html.unescape] *)
Variable unescape : string -> string.

(** [trivia] on the [results] of the trivia service. *)
Definition trivia (results : list question) : value :=
  match results with
  | [] => JObj [("ok", JBool false); ("error", JStr "no trivia")]
  | q :: _ =>
      JObj [("ok", JBool true);
            ("question", JStr (unescape (text q)));
            ("choices",
             JArr (map (fun x => JStr (unescape x)) (incorrect_answers q)
                   ++ [JStr (unescape (correct_answer q))]));
            ("answer", JStr (unescape (correct_answer q)))]
  end.

End Trivia.

End Server.

(** ** Sample surroundings *)

Module Samples.
Import PyStr Json Agent.

(** Messages as Python 3.12 words them; the text of the decode error is
    the one of a document that is wrong from its first character. *)
Definition sample_message (e : exn) : string :=
  match e with
  | JSONDecodeError _ => "Expecting value: line 1 column 1 (char 0)"
  | NotSubscriptable type => "'" ++ type ++ "' object is not subscriptable"
  | Unhashable type => "unhashable type: '" ++ type ++ "'"
  | _ => ""
  end.

Definition text_result (payload : string) : CallToolResult :=
  {| blocks := [TextContent payload]; model_dump_json := "" |}.

(** A world given by the replies of its model and of its tools, call after
    call, on the tool table of the server. *)
Definition world (model : nat -> reply string)
  (tools : nat -> reply CallToolResult) : World :=
  {| list_tools := Server.tool_names;
     chat := fun n _ => model n;
     call_tool := fun n _ _ => tools n;
     runtime_message := sample_message |}.

Definition dog_payload : string :=
  js "{'ok':true,'image':'https://images.dog.ceo/breeds/pug/n02110958_1.jpg'}".

(** The model asks for the dog picture, and the tool delivers. *)
Definition dog_world : World :=
  world (fun _ => Reply (js "{'action':'random_dog','args':{}}"))
        (fun _ => Reply (text_result dog_payload)).

(** The model answers in plain words, with a space around them. *)
Definition chatty_world : World :=
  world (fun _ => Reply " Have a nice weekend! ")
        (fun _ => Failure "unused").

(** The model answers a form feed and the number five. *)
Definition form_feed_world : World :=
  world (fun _ => Reply (String (chr 12) "5"))
        (fun _ => Failure "unused").

(** The model asks for a joke seven times and then for a tool that does not
    exist. *)
Definition stray_world : World :=
  world (fun n => if Nat.ltb n 7
                  then Reply (js "{'action':'random_joke','args':{}}")
                  else Reply (js "{'action':'teleport','args':{}}"))
        (fun _ => Reply (text_result (js "{'ok':true,'joke':'Knock knock.'}"))).

(** The model asks for a joke whatever it is shown. *)
Definition joker_world : World :=
  world (fun _ => Reply (js "{'action':'random_joke','args':{}}"))
        (fun _ => Reply (text_result (js "{'ok':true,'joke':'Knock knock.'}"))).


(** The model asks for a joke and the tool host fails. *)
Definition offline_world : World :=
  world (fun _ => Reply (js "{'action':'random_joke','args':{}}"))
        (fun _ => Failure "Connection closed").

(** The trivia tool returns the text of an empty list. *)
Definition empty_list_world : World :=
  world (fun _ => Reply "unused")
        (fun _ => Reply (text_result "[]")).



Definition question_payload : string :=
  js "{'ok':true,'question':'Who wrote Hamlet?','choices':['Marlowe','Shakespeare'],'answer':'Shakespeare'}".

(** The trivia tool returns a question. *)
Definition quiz_world : World :=
  world (fun _ => Reply "unused")
        (fun _ => Reply (text_result question_payload)).


(** The model answers the number five. *)
Definition five_world : World :=
  world (fun _ => Reply "5") (fun _ => Failure "unused").

End Samples.



(** ** Vocabulary of the properties *)

Module Vocabulary.
Import PyStr Json Agent.

(** The state after [history.append]. *)
Definition say (r : Role) (c : string) (s : State) : State :=
  {| history := history s ++ [entry r c]; calls := calls s |}.

(** [d.get(key, default)] on the members of a dict. *)
Definition field (d : dict) (key : string) (default : value) : value :=
  match lookup key d with
  | Some v => v
  | None => default
  end.

(** A decision that is a dict, as the loop reads it: whether it is the final
    answer, and otherwise the tool name and the arguments. *)
Definition decision_is_final (d : dict) : bool :=
  is_final (field d "action" JNull).

Definition decision_name (d : dict) : string :=
  strip (str (field d "action" (JStr ""))).

Definition decision_args (d : dict) : value := field d "args" (JObj []).

(** The payload the loop takes from a tool result. *)
Definition payload_of (r : CallToolResult) : string :=
  match first_text r with
  | Some t => t
  | None => model_dump_json r
  end.

(** The payload the trivia handling takes from a tool result. *)
Definition trivia_payload_of (r : CallToolResult) : string :=
  match first_text r with
  | Some t => t
  | None => "{}"
  end.

(** What follows the decision in the body of the loop. *)
Definition dispatch (w : World) (tool_index : list string) (decision : value)
  : M flow :=
  action <- lift (get decision "action" JNull) ;;
  if is_final action then
    answer <- lift (get decision "answer" (JStr "")) ;;
    history_append assistant (to_plain_text answer) ;;
    ret Break
  else
    action <- lift (get decision "action" (JStr "")) ;;
    let tname := strip (str action) in
    args <- lift (get decision "args" (JObj [])) ;;
    if String.eqb tname "" || negb (mem tname tool_index) then
      history_append assistant ("Unknown tool: " ++ tname) ;;
      ret Break
    else
      called <- try_except
                  (result <- session_call_tool w tname args ;; ret (Some result))
                  (fun e =>
                     history_append user
                       ("[Tool Error] " ++ "Tool '" ++ tname ++ "' failed: "
                        ++ str_exn w e) ;;
                     ret None) ;;
      match called with
      | None => ret Continue
      | Some result =>
          summary <- lift (summarize_tool_result tname (payload_of result)) ;;
          history_append user ("[Tool Result] " ++ summary) ;;
          ret Continue
      end.

(** The entries written by the assistant. *)
Definition by_assistant (m : message) : bool :=
  match role m with
  | assistant => true
  | _ => false
  end.

(** A computation that asks the model [k] more times, however it ends. *)
Definition asks {A : Type} (k : nat) (m : M A) : Prop :=
  forall s, chat_calls (state_of (m s)) = chat_calls s + k.

End Vocabulary.

(** ** More of the tool host, and vocabulary for the whole session *)

Module Books.
Import PyStr Json.

(** One document of the book search as the service documents it; every
    field may be absent. *)
Record doc : Type :=
  { title : option string;
    author_name : option (list string);
    first_publish_year : option Z;
    key : option string }.

Definition opt_str (o : option string) : value :=
  match o with
  | Some s => JStr s
  | None => JNull
  end.

Definition opt_int (o : option Z) : value :=
  match o with
  | Some n => JInt n
  | None => JNull
  end.

(** [(d.get("author_name") or ["Unknown"])[0]] *)
Definition first_author (d : doc) : string :=
  match author_name d with
  | Some (a :: _) => a
  | Some [] | None => "Unknown"
  end.

(** The entry [book_recs] appends to [picks] for one document. *)
Definition pick (d : doc) : value :=
  JObj [("title", opt_str (title d));
        ("author", JStr (first_author d));
        ("year", opt_int (first_publish_year d));
        ("work", opt_str (key d))].

(** [book_recs] on the [docs] of the book search. *)
Definition book_recs (topic : string) (docs : list doc) : value :=
  JObj [("ok", JBool true); ("topic", JStr topic);
        ("results", JArr (map pick docs))].

End Books.

Module Effects.
Import PyStr Json Agent Vocabulary.

(** A string with no whitespace at its start. *)
Definition clean_start (s : string) : Prop :=
  match s with
  | "" => True
  | String c1 r1 =>
      ascii_space c1 = false
      /\ match r1 with
         | "" => True
         | String c2 r2 =>
             space2 c1 c2 = false
             /\ match r2 with
                | "" => True
                | String c3 _ => space3 c1 c2 c3 = false
                end
         end
  end.

(** A computation that only appends, however it ends: entries that satisfy
    [H] to the history and calls that satisfy [C] to the calls. *)
Definition appends {A : Type} (H : message -> Prop) (C : event -> Prop)
  (m : M A) : Prop :=
  forall s, exists hl cl,
    history (state_of (m s)) = (history s ++ hl)%list
    /\ calls (state_of (m s)) = (calls s ++ cl)%list
    /\ Forall H hl /\ Forall C cl.

(** A computation that invokes at most [k] tools, however it ends. *)
Definition invokes_at_most {A : Type} (k : nat) (m : M A) : Prop :=
  forall s, tool_calls (state_of (m s)) <= tool_calls s + k.

Definition not_system (m : message) : Prop := role m <> system.

(** A call the general loop may make: to the model, or to a tool whose name
    is not empty and is among the fetched ones. *)
Definition known_call (tool_index : list string) (e : event) : Prop :=
  match e with
  | ChatCall _ => True
  | ToolCall name _ => name <> "" /\ In name tool_index
  end.

(** A call a session may make: one of the general loop, or the one of the
    trivia handling. *)
Definition session_call (tool_index : list string) (e : event) : Prop :=
  known_call tool_index e \/ e = ToolCall "trivia" (JObj []).

(** The ways one pass of the loop can go once the decision is there, read
    off the branches of the body: the result of the pass from the state
    [s] on the decision. *)
Inductive pass (w : World) (tool_index : list string) (s : State)
  : value -> result flow -> Prop :=
| pass_not_dict v :
    (forall d, v <> JObj d) ->
    pass w tool_index s v (Raised (AttributeError (type_name v) "get") s)
| pass_final d :
    decision_is_final d = true ->
    pass w tool_index s (JObj d)
      (Returned Break
         (say assistant (to_plain_text (field d "answer" (JStr ""))) s))
| pass_unknown d :
    decision_is_final d = false ->
    decision_name d = "" \/ ~ In (decision_name d) tool_index ->
    pass w tool_index s (JObj d)
      (Returned Break (say assistant ("Unknown tool: " ++ decision_name d) s))
| pass_failure d e :
    decision_is_final d = false ->
    decision_name d <> "" -> In (decision_name d) tool_index ->
    call_tool w (tool_calls s) (decision_name d) (decision_args d) = Failure e ->
    pass w tool_index s (JObj d)
      (Returned Continue
         (say user
            ("[Tool Error] Tool '" ++ decision_name d ++ "' failed: " ++ e)
            (record (ToolCall (decision_name d) (decision_args d)) s)))
| pass_summary d r summary :
    decision_is_final d = false ->
    decision_name d <> "" -> In (decision_name d) tool_index ->
    call_tool w (tool_calls s) (decision_name d) (decision_args d) = Reply r ->
    summarize_tool_result (decision_name d) (payload_of r) = inr summary ->
    pass w tool_index s (JObj d)
      (Returned Continue
         (say user ("[Tool Result] " ++ summary)
            (record (ToolCall (decision_name d) (decision_args d)) s)))
| pass_summary_raises d r e :
    decision_is_final d = false ->
    decision_name d <> "" -> In (decision_name d) tool_index ->
    call_tool w (tool_calls s) (decision_name d) (decision_args d) = Reply r ->
    summarize_tool_result (decision_name d) (payload_of r) = inl e ->
    pass w tool_index s (JObj d)
      (Raised e (record (ToolCall (decision_name d) (decision_args d)) s)).

End Effects.

Module MoreSamples.
Import PyStr Json Agent Samples.

(** The model cannot be reached. *)
Definition silent_world : World :=
  world (fun _ => Failure "connection refused") (fun _ => Failure "unused").


(** The model asks for the trivia tool, which returns the text of an empty
    list. *)
Definition list_quiz_world : World :=
  world (fun _ => Reply (js "{'action':'trivia','args':{}}"))
        (fun _ => Reply (text_result "[]")).


Definition anonymous_book : Books.doc :=
  {| Books.title := Some "Beowulf"; Books.author_name := Some [];
     Books.first_publish_year := None; Books.key := Some "/works/OL1W" |}.

End MoreSamples.

(** ** Properties *)

Import PyStr Json Agent Samples Vocabulary.

(** *** Bookkeeping of the recorded calls *)

Lemma chat_calls_record_chat messages s :
  chat_calls (record (ChatCall messages) s) = S (chat_calls s).
Proof.
  unfold chat_calls, record; simpl.
  rewrite filter_app, length_app; simpl; lia.
Qed.

Lemma chat_calls_record_tool name args s :
  chat_calls (record (ToolCall name args) s) = chat_calls s.
Proof.
  unfold chat_calls, record; simpl.
  rewrite filter_app, length_app; simpl; lia.
Qed.

Lemma tool_calls_record_chat messages s :
  tool_calls (record (ChatCall messages) s) = tool_calls s.
Proof.
  unfold tool_calls, record; simpl.
  rewrite filter_app, length_app; simpl; lia.
Qed.

Lemma tool_calls_record_tool name args s :
  tool_calls (record (ToolCall name args) s) = S (tool_calls s).
Proof.
  unfold tool_calls, record; simpl.
  rewrite filter_app, length_app; simpl; lia.
Qed.

Lemma chat_calls_say r c s : chat_calls (say r c s) = chat_calls s.
Proof. reflexivity. Qed.

Lemma tool_calls_say r c s : tool_calls (say r c s) = tool_calls s.
Proof. reflexivity. Qed.

Lemma history_append_say r c s : history_append r c s = Returned tt (say r c s).
Proof. reflexivity. Qed.

(** *** The decision parser *)

Lemma llm_json_reply w messages s raw :
  chat w (chat_calls s) messages = Reply raw ->
  llm_json w messages s =
  Returned (match loads (strip raw) with
            | Some v => v
            | None => final (strip raw)
            end) (record (ChatCall messages) s).
Proof.
  intros H. unfold llm_json, bind, try_except, chat_content, ret.
  rewrite H. destruct (loads (strip raw)); reflexivity.
Qed.

Lemma llm_json_failure w messages s e :
  chat w (chat_calls s) messages = Failure e ->
  llm_json w messages s =
  Returned (final ("Sorry, I had trouble reaching my brain: " ++ e))
           (record (ChatCall messages) s).
Proof.
  intros H. unfold llm_json, bind, try_except, chat_content, ret.
  rewrite H. reflexivity.
Qed.

(** [llm_json] always returns, and asks the model once. *)
Lemma llm_json_total w messages s :
  exists v, llm_json w messages s = Returned v (record (ChatCall messages) s).
Proof.
  destruct (chat w (chat_calls s) messages) as [raw|e] eqn:H.
  - eexists. apply (llm_json_reply _ _ _ _ H).
  - eexists. apply (llm_json_failure _ _ _ _ H).
Qed.

(** *** How often the model is asked *)

Lemma asks_ret {A} (a : A) : asks 0 (ret a).
Proof. intros s; simpl; lia. Qed.

Lemma asks_raise {A} e : asks 0 (@raise A e).
Proof. intros s; simpl; lia. Qed.

Lemma asks_lift {A} (r : exn + A) : asks 0 (lift r).
Proof. destruct r; [apply asks_raise | apply asks_ret]. Qed.

Lemma asks_history_append r c : asks 0 (history_append r c).
Proof. intros s; unfold chat_calls; simpl; lia. Qed.

Lemma asks_call_tool w name args : asks 0 (session_call_tool w name args).
Proof.
  intros s; unfold session_call_tool.
  destruct (call_tool w (tool_calls s) name args); simpl;
    rewrite chat_calls_record_tool; lia.
Qed.

Lemma asks_bind {A B} a b (m : M A) (k : A -> M B) :
  asks a m -> (forall x, asks b (k x)) -> b = 0 \/ (forall s, exists x s', m s = Returned x s') ->
  asks (a + b) (bind m k).
Proof.
  intros Hm Hk Hb s. unfold bind.
  specialize (Hm s).
  destruct (m s) as [x s'|e s'] eqn:E; simpl in *.
  - rewrite (Hk x s'). lia.
  - destruct Hb as [->|Hb]; [lia|].
    destruct (Hb s) as (x & s'' & E'). congruence.
Qed.

Lemma asks_bind0 {A B} (m : M A) (k : A -> M B) :
  asks 0 m -> (forall x, asks 0 (k x)) -> asks 0 (bind m k).
Proof. intros Hm Hk. apply (asks_bind 0 0); auto. Qed.

Lemma asks_try {A} (m : M A) (h : exn -> M A) :
  asks 0 m -> (forall e, asks 0 (h e)) -> asks 0 (try_except m h).
Proof.
  intros Hm Hh s. unfold try_except. specialize (Hm s).
  destruct (m s) as [x s'|e s']; simpl in *; [lia|].
  rewrite (Hh e s'). lia.
Qed.

Ltac asks0 :=
  repeat first
    [ apply asks_ret | apply asks_raise | apply asks_lift
    | apply asks_history_append | apply asks_call_tool
    | apply asks_bind0; [|intros]
    | apply asks_try; [|intros]
    | match goal with
      | |- asks 0 (if ?b then _ else _) => destruct b
      | |- asks 0 (match ?x with _ => _ end) => destruct x
      | |- asks 0 (let _ := _ in _) => cbv zeta
      end ].

Lemma asks_dispatch w tool_index decision :
  asks 0 (dispatch w tool_index decision).
Proof. unfold dispatch. asks0. Qed.

Lemma asks_llm_json w messages : asks 1 (llm_json w messages).
Proof.
  intros s. destruct (llm_json_total w messages s) as (v & ->); simpl.
  rewrite chat_calls_record_chat; lia.
Qed.

Lemma iteration_dispatch w tool_index s :
  iteration w tool_index s =
  bind (llm_json w (history s)) (dispatch w tool_index) s.
Proof. reflexivity. Qed.

Lemma asks_iteration w tool_index : asks 1 (iteration w tool_index).
Proof.
  intros s. rewrite iteration_dispatch.
  apply (asks_bind 1 0); auto using asks_llm_json, asks_dispatch.
Qed.

Lemma asks_trivia_turn w : asks 0 (trivia_turn w).
Proof. unfold trivia_turn. asks0. Qed.

(** The loop asks the model at most once per pass. *)
Lemma for_range_chat_calls w tool_index n s :
  chat_calls (state_of (for_range n (iteration w tool_index) s))
  <= chat_calls s + n.
Proof.
  revert s; induction n as [|n IH]; intros s; simpl; [lia|].
  unfold bind. pose proof (asks_iteration w tool_index s) as H.
  destruct (iteration w tool_index s) as [[|] s'|e s']; simpl in *.
  - specialize (IH s'). lia.
  - lia.
  - lia.
Qed.

(** When the loop is not left early, the model was asked once per pass. *)
Lemma for_range_false_chat_calls w tool_index n s s' :
  for_range n (iteration w tool_index) s = Returned false s' ->
  chat_calls s' = chat_calls s + n.
Proof.
  revert s; induction n as [|n IH]; intros s; simpl.
  - intros [= <-]. lia.
  - unfold bind. pose proof (asks_iteration w tool_index s) as H.
    destruct (iteration w tool_index s) as [[|] s1|e s1]; simpl in *;
      try discriminate.
    intros E. rewrite (IH _ E). lia.
Qed.

(** *** The cases of one pass *)

Lemma mem_In x l : mem x l = true <-> In x l.
Proof.
  unfold mem. rewrite existsb_exists. split.
  - intros (y & Hy & E). apply String.eqb_eq in E. now subst.
  - intros H. exists x. split; [assumption | apply String.eqb_refl].
Qed.

Lemma mem_not_In x l : mem x l = false <-> ~ In x l.
Proof.
  rewrite <- mem_In. destruct (mem x l); split; intros; congruence.
Qed.

Ltac run :=
  unfold dispatch, bind, lift, ret, raise, get, try_except,
    session_call_tool, history_append, decision_is_final, decision_name,
    decision_args, field, say in *;
  cbv beta iota zeta in *.

Lemma dispatch_not_dict w tool_index v s :
  (forall d, v <> JObj d) ->
  dispatch w tool_index v s = Raised (AttributeError (type_name v) "get") s.
Proof.
  intros H. destruct v; try reflexivity.
  exfalso. now apply (H members).
Qed.

Lemma dispatch_final w tool_index d s :
  decision_is_final d = true ->
  dispatch w tool_index (JObj d) s =
  Returned Break (say assistant (to_plain_text (field d "answer" (JStr ""))) s).
Proof. intros H. run. rewrite H. reflexivity. Qed.

Lemma dispatch_unknown w tool_index d s :
  decision_is_final d = false ->
  decision_name d = "" \/ ~ In (decision_name d) tool_index ->
  dispatch w tool_index (JObj d) s =
  Returned Break (say assistant ("Unknown tool: " ++ decision_name d) s).
Proof.
  intros H U.
  assert (G : String.eqb (decision_name d) ""
              || negb (mem (decision_name d) tool_index) = true).
  { destruct U as [U|U].
    - rewrite U. reflexivity.
    - apply mem_not_In in U. rewrite U. apply orb_true_r. }
  run. rewrite H, G. reflexivity.
Qed.

Lemma known_tool_guard d tool_index :
  decision_name d <> "" -> In (decision_name d) tool_index ->
  String.eqb (decision_name d) "" || negb (mem (decision_name d) tool_index)
  = false.
Proof.
  intros N I. apply String.eqb_neq in N. apply mem_In in I.
  rewrite N, I. reflexivity.
Qed.

Lemma dispatch_failure w tool_index d s e :
  decision_is_final d = false ->
  decision_name d <> "" -> In (decision_name d) tool_index ->
  call_tool w (tool_calls s) (decision_name d) (decision_args d) = Failure e ->
  dispatch w tool_index (JObj d) s =
  Returned Continue
    (say user ("[Tool Error] Tool '" ++ decision_name d ++ "' failed: " ++ e)
       (record (ToolCall (decision_name d) (decision_args d)) s)).
Proof.
  intros H N I C. pose proof (known_tool_guard d tool_index N I) as G.
  run. rewrite H, G, C. reflexivity.
Qed.

Lemma dispatch_result w tool_index d s r :
  decision_is_final d = false ->
  decision_name d <> "" -> In (decision_name d) tool_index ->
  call_tool w (tool_calls s) (decision_name d) (decision_args d) = Reply r ->
  dispatch w tool_index (JObj d) s =
  let s1 := record (ToolCall (decision_name d) (decision_args d)) s in
  match summarize_tool_result (decision_name d) (payload_of r) with
  | inr summary => Returned Continue (say user ("[Tool Result] " ++ summary) s1)
  | inl e => Raised e s1
  end.
Proof.
  intros H N I C. pose proof (known_tool_guard d tool_index N I) as G.
  run. rewrite H, G, C.
  destruct (summarize_tool_result _ _); reflexivity.
Qed.

(** A pass continues exactly when it has invoked a tool, and it ends the
    turn without invoking one. *)
Lemma dispatch_tool_calls w tool_index v s f s' :
  dispatch w tool_index v s = Returned f s' ->
  tool_calls s' = match f with
                  | Continue => S (tool_calls s)
                  | Break => tool_calls s
                  end.
Proof.
  destruct v as [| | | | | |d];
    try (rewrite dispatch_not_dict by (intros; discriminate); discriminate).
  destruct (decision_is_final d) eqn:F.
  { rewrite dispatch_final by assumption. intros [= <- <-]. reflexivity. }
  destruct (String.eqb (decision_name d) "") eqn:N.
  { apply String.eqb_eq in N.
    rewrite dispatch_unknown by auto. intros [= <- <-]. reflexivity. }
  apply String.eqb_neq in N.
  destruct (mem (decision_name d) tool_index) eqn:I.
  2:{ apply mem_not_In in I.
      rewrite dispatch_unknown by auto. intros [= <- <-]. reflexivity. }
  apply mem_In in I.
  destruct (call_tool w (tool_calls s) (decision_name d) (decision_args d))
    as [r|e] eqn:C.
  - rewrite (dispatch_result _ _ _ _ _ F N I C). cbv zeta.
    destruct (summarize_tool_result _ _); [discriminate|].
    intros [= <- <-]. unfold say, tool_calls; simpl.
    rewrite filter_app, length_app; simpl; lia.
  - rewrite (dispatch_failure _ _ _ _ _ F N I C).
    intros [= <- <-]. unfold say, tool_calls; simpl.
    rewrite filter_app, length_app; simpl; lia.
Qed.

Lemma iteration_tool_calls w tool_index s f s' :
  iteration w tool_index s = Returned f s' ->
  tool_calls s' = match f with
                  | Continue => S (tool_calls s)
                  | Break => tool_calls s
                  end.
Proof.
  rewrite iteration_dispatch. unfold bind.
  destruct (llm_json_total w (history s) s) as (v & ->).
  intros H. apply dispatch_tool_calls in H.
  rewrite tool_calls_record_chat in H. exact H.
Qed.

Lemma for_range_false_tool_calls w tool_index n s s' :
  for_range n (iteration w tool_index) s = Returned false s' ->
  tool_calls s' = tool_calls s + n.
Proof.
  revert s; induction n as [|n IH]; intros s; simpl.
  - intros [= <-]. lia.
  - unfold bind.
    destruct (iteration w tool_index s) as [[|] s1|e s1] eqn:E; simpl;
      try discriminate.
    intros R. rewrite (IH _ R). apply iteration_tool_calls in E. lia.
Qed.

(** The pass whose decision is known. *)
Lemma iteration_decided w tool_index s v s1 :
  llm_json w (history s) s = Returned v s1 ->
  iteration w tool_index s = dispatch w tool_index v s1.
Proof. intros H. rewrite iteration_dispatch. unfold bind. now rewrite H. Qed.

Lemma llm_json_state w messages s v s1 :
  llm_json w messages s = Returned v s1 -> s1 = record (ChatCall messages) s.
Proof.
  destruct (llm_json_total w messages s) as (v' & E). rewrite E.
  now intros [= _ <-].
Qed.

(** *** C1: malformed model output *)




(** A form feed is whitespace for [strip] and not for JSON: the output
    below is not valid JSON, and yet the decision is the number 5. *)
Lemma llm_json_form_feed :
  loads (String (chr 12) "5") = None
  /\ llm_json form_feed_world [] initial =
     Returned (JInt 5) (record (ChatCall []) initial).
Proof. split; reflexivity. Qed.

(** When the model cannot be reached the decision is the apology. *)
Lemma llm_json_unreachable w messages s e :
  chat w (chat_calls s) messages = Failure e ->
  llm_json w messages s =
  Returned (final ("Sorry, I had trouble reaching my brain: " ++ e))
           (record (ChatCall messages) s).
Proof. apply llm_json_failure. Qed.

(** *** C2: unknown tool *)



(** The name is read after conversion to text and stripping: an action
    that is missing, or is not a string, is looked up in that form. *)
Lemma decision_name_examples :
  decision_name [("args", JObj [])] = ""
  /\ decision_name [("action", JNull)] = "None"
  /\ decision_name [("action", JStr " trivia ")] = "trivia".
Proof. repeat split. Qed.

(** *** C3: the step ceiling *)

(** C3.  The general loop asks [llm_json] for a decision at most 8 times,
    however it ends; so does every turn.  ([llm_json] asks the model
    exactly once, see [asks_llm_json], so the calls to the model count the
    evaluations.) *)
Theorem at_most_eight_evaluations w tool_index :
  (forall s,
     chat_calls (state_of (general_loop w tool_index s)) <= chat_calls s + 8)
  /\ (forall user_input s,
        chat_calls (state_of (turn w tool_index user_input s))
        <= chat_calls s + 8).
Proof.
  assert (G : forall s,
    chat_calls (state_of (general_loop w tool_index s)) <= chat_calls s + 8).
  { intros s. unfold general_loop, bind.
    pose proof (for_range_chat_calls w tool_index 8 s) as H.
    destruct (for_range 8 (iteration w tool_index) s) as [[|] s'|e s'];
      simpl in *; assumption. }
  split; [exact G|].
  intros user_input s. unfold turn, bind.
  rewrite history_append_say.
  destruct (contains "trivia" (lower user_input)).
  - rewrite (asks_trivia_turn w). rewrite chat_calls_say. lia.
  - specialize (G (say user user_input s)). rewrite chat_calls_say in G.
    exact G.
Qed.

(** *** C4: a tool invocation that fails *)



(** A session whose tool host is down goes on to its end. *)
Lemma offline_session_ends :
  exists s, main offline_world ["tell me a joke"; "quit"] = Returned tt s.
Proof. eexists. vm_compute. reflexivity. Qed.

(** *** C5: the dog picture *)

(** The summarizer knows the tools under the names weather, book, joke, dog
    and trivia; the tool host registers get_weather, book_recs,
    random_joke, random_dog and trivia.  A payload of [random_dog] that is
    valid JSON therefore gets the generic summary. *)
Lemma summarize_random_dog payload data :
  loads payload = Some data ->
  summarize_tool_result "random_dog" payload =
  inr ("Tool 'random_dog' returned: " ++ dumps data).
Proof. intros L. unfold summarize_tool_result. rewrite L. reflexivity. Qed.

(** The sample payload is what [random_dog] builds from the answer of the
    image service. *)
Lemma dog_payload_from_server :
  loads dog_payload =
  Some (Server.random_dog
          [("message",
            JStr "https://images.dog.ceo/breeds/pug/n02110958_1.jpg");
           ("status", JStr "success")]).
Proof. reflexivity. Qed.

(** The sentence with the emoji belongs to the name dog, which the loop
    rejects as an unknown tool. *)
Lemma dog_sentence_unreachable :
  summarize_tool_result "dog" dog_payload
  = inr "I fetched a cute dog picture for you! 🐶"
  /\ mem "dog" Server.tool_names = false.
Proof. split; reflexivity. Qed.

(** C5, on the code.  The model returns the decision for [random_dog] with
    no arguments and the tool returns its payload: the pass invokes the
    tool with no arguments, appends the generic summary of the payload (and
    not the sentence with the emoji), and the loop goes on. *)
Theorem random_dog_summary_is_generic :
  let s := say user "show me a dog" initial in
  iteration dog_world Server.tool_names s =
  Returned Continue
    (say user
       ("[Tool Result] Tool 'random_dog' returned: "
        ++ js "{'ok': true, 'image': 'https://images.dog.ceo/breeds/pug/n02110958_1.jpg'}")
       (record (ToolCall "random_dog" (JObj []))
          (record (ChatCall (history s)) s))).
Proof. vm_compute. reflexivity. Qed.

(** *** C6: the trivia summary *)

(** The summary of a trivia payload whose question is a string. *)
Lemma trivia_summary_string payload d q :
  loads payload = Some (JObj d) ->
  lookup "question" d = Some (JStr q) ->
  summarize_tool_result "trivia" payload = inr ("Trivia question: " ++ q).
Proof.
  intros L Q. unfold summarize_tool_result. rewrite L. simpl. rewrite Q.
  reflexivity.
Qed.




(** The decoding is done by the tool host, whose payload has the fields
    question, choices and answer: when the payload reads back as what
    [trivia] built, the summary has the decoded question. *)
Lemma trivia_summary_of_server unescape payload q rest d :
  Server.trivia unescape (q :: rest) = JObj d ->
  loads payload = Some (JObj d) ->
  summarize_tool_result "trivia" payload
  = inr ("Trivia question: " ++ unescape (Server.text q))
  /\ lookup "incorrect_answers" d = None
  /\ lookup "correct_answer" d = None.
Proof.
  intros [= <-] L. split; [|split; reflexivity].
  apply (trivia_summary_string _ _ _ L). reflexivity.
Qed.

(** *** C7: the step limit *)

(** C7, as amended.  When the 8 passes of the loop all end by going on
    (none has the final answer, none names an unknown tool), the turn ends
    with the fixed message appended as an assistant entry, after exactly 8
    evaluations, each of which invoked a tool. *)
Theorem step_limit_exhausted w tool_index s s' :
  for_range 8 (iteration w tool_index) s = Returned false s' ->
  general_loop w tool_index s = Returned tt (say assistant COULD_NOT_FINISH s')
  /\ chat_calls s' = chat_calls s + 8
  /\ tool_calls s' = tool_calls s + 8.
Proof.
  intros R. split; [|split].
  - unfold general_loop, bind. rewrite R. reflexivity.
  - apply (for_range_false_chat_calls _ _ _ _ _ R).
  - apply (for_range_false_tool_calls _ _ _ _ _ R).
Qed.

Lemma step_limit_exhausted_witness :
  general_loop joker_world Server.tool_names initial =
  Returned tt
    (say assistant COULD_NOT_FINISH
       (state_of (for_range 8 (iteration joker_world Server.tool_names) initial))).
Proof.
  refine (proj1
    (step_limit_exhausted joker_world Server.tool_names initial
       (state_of (for_range 8 (iteration joker_world Server.tool_names) initial))
       _)).
  vm_compute. reflexivity.
Defined.

(** C7 as stated fails: seven decisions invoke a tool and the eighth names
    an unknown tool.  Eight evaluations are made, none is a final answer,
    and the turn ends with the Unknown tool message, the only assistant
    entry of the turn. *)
Lemma eighth_decision_unknown_tool :
  let r := turn stray_world Server.tool_names "tell me jokes" initial in
  r = Returned tt (state_of r)
  /\ chat_calls (state_of r) = 8
  /\ tool_calls (state_of r) = 7
  /\ filter by_assistant (history (state_of r))
     = [entry assistant "Unknown tool: teleport"].
Proof. vm_compute. repeat split. Qed.

(** *** C8: leaving the session *)

(** C8.  A line that is empty once stripped, or whose stripped text is exit
    or quit in any case, ends the session at once: the state is the one
    before the line, so the model is not asked and no tool is invoked. *)
Theorem exit_ends_session w tool_index line rest s :
  strip line = "" \/ lower (strip line) = "exit" \/ lower (strip line) = "quit" ->
  session w tool_index (line :: rest) s = Returned tt s
  /\ main w (line :: rest) = Returned tt initial.
Proof.
  intros H.
  assert (E : ends_session (strip line) = true).
  { unfold ends_session. destruct H as [H|[H|H]]; rewrite H.
    - reflexivity.
    - apply orb_true_r.
    - apply orb_true_r. }
  unfold main. simpl. rewrite E. split; reflexivity.
Qed.

Lemma exit_ends_session_witness :
  main five_world ["  QUIT  "; "never read"] = Returned tt initial.
Proof.
  refine (proj2
    (exit_ends_session five_world Server.tool_names "  QUIT  " ["never read"]
       initial _)).
  right; right. reflexivity.
Defined.

(** The state at the start has no call. *)
Lemma initial_calls : calls initial = [].
Proof. reflexivity. Qed.

(** *** C9: an input that mentions trivia *)

(** Printing the question and the choices succeeds on the payload of the
    tool host, which has neither of the two answer fields, and on a payload
    whose answers are a list of hashable values. *)
Lemma print_trivia_without_answers d :
  lookup "incorrect_answers" d = None ->
  lookup "correct_answer" d = None ->
  print_trivia (JObj d) = inr tt.
Proof.
  intros I C. unfold print_trivia, get, getitem. rewrite I, C. reflexivity.
Qed.

Lemma print_trivia_with_answers d items c :
  lookup "incorrect_answers" d = Some (JArr items) ->
  lookup "correct_answer" d = Some c ->
  forallb hashable (items ++ [c]) = true ->
  print_trivia (JObj d) = inr tt.
Proof.
  intros I C H. unfold print_trivia, get, getitem. rewrite I, C.
  assert (F : forall l, forallb hashable l = true ->
                        find (fun x => negb (hashable x)) l = None).
  { induction l as [|x l IH]; simpl; [reflexivity|].
    intros E. apply andb_prop in E as [E1 E2]. rewrite E1. simpl. auto. }
  rewrite forallb_app in H. apply andb_prop in H as [H1 H2].
  destruct (truthy c); simpl.
  - rewrite F; [reflexivity|]. rewrite forallb_app, H1, H2. reflexivity.
  - rewrite F; [reflexivity | assumption].
Qed.




(** The same happens when the payload is not an object. *)
Lemma trivia_payload_not_an_object :
  turn empty_list_world Server.tool_names "Trivia please" initial =
  Returned tt
    {| history :=
         [entry system SYSTEM; entry user "Trivia please";
          entry assistant
            "Oops! Trivia failed: 'list' object has no attribute 'get'"];
       calls := [ToolCall "trivia" (JObj [])] |}.
Proof. reflexivity. Qed.

(** When the trivia tool raises, the entry is the assistant's as well. *)
Lemma trivia_tool_failure w tool_index user_input s e :
  contains "trivia" (lower user_input) = true ->
  call_tool w (tool_calls s) "trivia" (JObj []) = Failure e ->
  turn w tool_index user_input s =
  Returned tt
    {| history :=
         history s
         ++ [entry user user_input;
             entry assistant ("Oops! Trivia failed: " ++ e)];
       calls := calls s ++ [ToolCall "trivia" (JObj [])] |}.
Proof.
  intros T C. unfold turn, bind. rewrite history_append_say, T.
  unfold trivia_turn, try_except, bind, session_call_tool.
  rewrite tool_calls_say, C.
  unfold say, record, history_append; cbn [history calls str_exn].
  rewrite <- app_assoc. reflexivity.
Qed.

(** *** C10: a decision that is not a mapping *)

(** C10.  When the stripped output of the model is valid JSON and is not an
    object, [llm_json] returns the parsed value as it is, and the loop
    raises on its first access to it: the exception leaves the pass, the
    loop, the turn and the session. *)
Theorem non_mapping_decision_raises w tool_index s raw v :
  chat w (chat_calls s) (history s) = Reply raw ->
  loads (strip raw) = Some v ->
  (forall d, v <> JObj d) ->
  let s1 := record (ChatCall (history s)) s in
  let e := AttributeError (type_name v) "get" in
  llm_json w (history s) s = Returned v s1
  /\ iteration w tool_index s = Raised e s1
  /\ general_loop w tool_index s = Raised e s1.
Proof.
  intros C L N s1 e.
  assert (J : llm_json w (history s) s = Returned v s1).
  { rewrite (llm_json_reply _ _ _ _ C), L. reflexivity. }
  assert (I : iteration w tool_index s = Raised e s1).
  { rewrite (iteration_decided _ _ _ _ _ J). now apply dispatch_not_dict. }
  repeat split; try assumption.
  unfold general_loop, bind. simpl for_range. unfold bind. rewrite I.
  reflexivity.
Qed.

Lemma non_mapping_decision_raises_witness :
  general_loop five_world Server.tool_names initial =
  Raised (AttributeError "int" "get")
    (record (ChatCall (history initial)) initial).
Proof.
  refine (proj2 (proj2
    (non_mapping_decision_raises five_world Server.tool_names initial "5"
       (JInt 5) _ _ _))).
  - reflexivity.
  - reflexivity.
  - discriminate.
Defined.

(** The session of a model that answers 5, or a list, ends with the
    exception. *)
Lemma non_mapping_session_raises :
  (exists s, main five_world ["hello"; "quit"]
             = Raised (AttributeError "int" "get") s)
  /\ (exists s, main (world (fun _ => Reply "[1]") (fun _ => Failure "unused"))
                  ["hello"; "quit"]
                = Raised (AttributeError "list" "get") s).
Proof. split; eexists; vm_compute; reflexivity. Qed.

(** ** Further properties *)

Import Effects MoreSamples.

(** *** Stripping *)

Lemma rev_string_involutive s : rev_string (rev_string s) = s.
Proof.
  unfold rev_string.
  rewrite list_ascii_of_string_of_list_ascii, rev_involutive.
  apply string_of_list_ascii_of_string.
Qed.

Lemma list_ascii_of_string_app s t :
  list_ascii_of_string (s ++ t)
  = (list_ascii_of_string s ++ list_ascii_of_string t)%list.
Proof. induction s as [|c s IH]; simpl; [reflexivity | now rewrite IH]. Qed.

Lemma string_of_list_ascii_app l m :
  string_of_list_ascii (l ++ m)
  = string_of_list_ascii l ++ string_of_list_ascii m.
Proof. induction l as [|c l IH]; simpl; [reflexivity | now rewrite IH]. Qed.

Lemma rev_string_app s t :
  rev_string (s ++ t) = rev_string t ++ rev_string s.
Proof.
  unfold rev_string.
  now rewrite list_ascii_of_string_app, rev_app_distr, string_of_list_ascii_app.
Qed.

(** What [drop_space] gives is the string itself, or what it gives on a
    shorter string that the string ends with. *)
Lemma drop_space_unfold flip s :
  drop_space flip s = s
  \/ exists p r, s = p ++ r /\ String.length r < String.length s
                 /\ drop_space flip s = drop_space flip r.
Proof.
  destruct s as [|c1 r1]; [now left|]. simpl.
  destruct (ascii_space c1).
  { right. exists (String c1 ""), r1. repeat split; simpl; lia. }
  destruct r1 as [|c2 r2]; [now left|].
  destruct (if flip then space2 c2 c1 else space2 c1 c2).
  { right. exists (String c1 (String c2 "")), r2. repeat split; simpl; lia. }
  destruct r2 as [|c3 r3]; [now left|].
  destruct (if flip then space3 c3 c2 c1 else space3 c1 c2 c3).
  { right. exists (String c1 (String c2 (String c3 ""))), r3. repeat split; simpl; lia. }
  now left.
Qed.

Lemma append_assoc s t u : (s ++ t) ++ u = s ++ (t ++ u).
Proof. induction s as [|c s IH]; simpl; [reflexivity | now rewrite IH]. Qed.

(** [drop_space] removes a prefix, and what is left has nothing to remove. *)
Lemma drop_space_spec flip s :
  (exists p, s = p ++ drop_space flip s)
  /\ drop_space flip (drop_space flip s) = drop_space flip s.
Proof.
  remember (String.length s) as n eqn:E.
  revert s E. induction n as [n IH] using lt_wf_ind. intros s E.
  destruct (drop_space_unfold flip s) as [H|(p & r & -> & L & H)].
  - rewrite H. split; [now exists ""|assumption].
  - rewrite H. subst n.
    destruct (IH _ L r eq_refl) as [(q & Q) I].
    split; [|assumption].
    exists (p ++ q). rewrite append_assoc. now rewrite <- Q.
Qed.

Lemma clean_start_lstrip s : clean_start (lstrip s).
Proof.
  unfold lstrip.
  remember (String.length s) as n eqn:E.
  revert s E. induction n as [n IH] using lt_wf_ind. intros s E.
  destruct s as [|c1 r1]; [exact I|]. simpl.
  destruct (ascii_space c1) eqn:A1.
  { apply (IH (String.length r1)); [subst; simpl; lia | reflexivity]. }
  destruct r1 as [|c2 r2]; [simpl; auto|].
  destruct (space2 c1 c2) eqn:A2.
  { apply (IH (String.length r2)); [subst; simpl; lia | reflexivity]. }
  destruct r2 as [|c3 r3]; [simpl; auto|].
  destruct (space3 c1 c2 c3) eqn:A3.
  { apply (IH (String.length r3)); [subst; simpl; lia | reflexivity]. }
  simpl. auto.
Qed.

Lemma lstrip_clean_start s : clean_start s -> lstrip s = s.
Proof.
  unfold lstrip. destruct s as [|c1 r1]; [reflexivity|]. simpl.
  intros [A1 H]. rewrite A1.
  destruct r1 as [|c2 r2]; [reflexivity|]. destruct H as [A2 H]. rewrite A2.
  destruct r2 as [|c3 r3]; [reflexivity|]. now rewrite H.
Qed.

Lemma clean_start_prefix t q : clean_start (t ++ q) -> clean_start t.
Proof.
  destruct t as [|c1 [|c2 [|c3 t]]]; simpl; auto.
  - destruct q; simpl; tauto.
  - destruct q; simpl; tauto.
Qed.

(** What [strip] gives has nothing left to strip. *)
Lemma strip_idempotent s : strip (strip s) = strip s.
Proof.
  unfold strip at 2. set (a := lstrip s).
  assert (L : lstrip (rstrip a) = rstrip a).
  { apply lstrip_clean_start.
    destruct (drop_space_spec true (rev_string a)) as [(p & P) _].
    apply (f_equal rev_string) in P.
    rewrite rev_string_involutive, rev_string_app in P.
    fold (rstrip a) in P.
    apply (clean_start_prefix _ (rev_string p)). rewrite <- P.
    apply clean_start_lstrip. }
  unfold strip. rewrite L. unfold rstrip at 1.
  unfold rstrip at 1. rewrite rev_string_involutive.
  destruct (drop_space_spec true (rev_string a)) as [_ I].
  rewrite I. reflexivity.
Qed.

(** *** The outcomes of one pass *)

Lemma dispatch_pass w tool_index v s :
  pass w tool_index s v (dispatch w tool_index v s).
Proof.
  destruct v as [| | | | | |d];
    try (rewrite dispatch_not_dict by (intros; discriminate);
         apply pass_not_dict; intros; discriminate).
  destruct (decision_is_final d) eqn:F.
  { rewrite dispatch_final by assumption. now apply pass_final. }
  destruct (String.eqb (decision_name d) "") eqn:N.
  { apply String.eqb_eq in N.
    rewrite dispatch_unknown by auto. apply pass_unknown; auto. }
  apply String.eqb_neq in N.
  destruct (mem (decision_name d) tool_index) eqn:I.
  2:{ apply mem_not_In in I.
      rewrite dispatch_unknown by auto. apply pass_unknown; auto. }
  apply mem_In in I.
  destruct (call_tool w (tool_calls s) (decision_name d) (decision_args d))
    as [r|e] eqn:C.
  - rewrite (dispatch_result _ _ _ _ _ F N I C). cbv zeta.
    destruct (summarize_tool_result _ _) eqn:S.
    + eapply pass_summary_raises; eauto.
    + eapply pass_summary; eauto.
  - rewrite (dispatch_failure _ _ _ _ _ F N I C). now apply pass_failure.
Qed.

(** One pass is the decision of [llm_json] followed by one of the outcomes
    of [pass]. *)
Lemma iteration_pass w tool_index s :
  exists v,
    llm_json w (history s) s = Returned v (record (ChatCall (history s)) s)
    /\ pass w tool_index (record (ChatCall (history s)) s) v
         (iteration w tool_index s).
Proof.
  destruct (llm_json_total w (history s) s) as (v & E).
  exists v. split; [assumption|].
  rewrite (iteration_decided _ _ _ _ _ E). apply dispatch_pass.
Qed.


(** *** Computations that only append *)

Lemma appends_ret {A} H C (a : A) : appends H C (ret a).
Proof. intros s. exists [], []. simpl. now rewrite !app_nil_r. Qed.

Lemma appends_raise {A} H C e : appends H C (@raise A e).
Proof. intros s. exists [], []. simpl. now rewrite !app_nil_r. Qed.

Lemma appends_lift {A} H C (r : exn + A) : appends H C (lift r).
Proof. destruct r; [apply appends_raise | apply appends_ret]. Qed.

Lemma appends_history_append (H : message -> Prop) C r c :
  H (entry r c) -> appends H C (history_append r c).
Proof.
  intros E s. exists [entry r c], []. simpl. rewrite app_nil_r. auto.
Qed.

Lemma appends_call_tool H (C : event -> Prop) w name args :
  C (ToolCall name args) -> appends H C (session_call_tool w name args).
Proof.
  intros E s. exists [], [ToolCall name args]. unfold session_call_tool.
  destruct (call_tool w (tool_calls s) name args); simpl;
    rewrite app_nil_r; auto.
Qed.

Lemma appends_bind {A B} H C (m : M A) (k : A -> M B) :
  appends H C m -> (forall x, appends H C (k x)) -> appends H C (bind m k).
Proof.
  intros Hm Hk s. unfold bind.
  destruct (Hm s) as (hl & cl & E1 & E2 & F1 & F2).
  destruct (m s) as [x s'|e s']; simpl in *.
  - destruct (Hk x s') as (hl' & cl' & E1' & E2' & F1' & F2').
    exists (hl ++ hl')%list, (cl ++ cl')%list.
    rewrite E1', E2', E1, E2, <- !app_assoc.
    repeat split; auto; apply Forall_app; auto.
  - exists hl, cl. auto.
Qed.

Lemma appends_try {A} H C (m : M A) (h : exn -> M A) :
  appends H C m -> (forall e, appends H C (h e)) -> appends H C (try_except m h).
Proof.
  intros Hm Hh s. unfold try_except.
  destruct (Hm s) as (hl & cl & E1 & E2 & F1 & F2).
  destruct (m s) as [x s'|e s']; simpl in *.
  - exists hl, cl. auto.
  - destruct (Hh e s') as (hl' & cl' & E1' & E2' & F1' & F2').
    exists (hl ++ hl')%list, (cl ++ cl')%list.
    rewrite E1', E2', E1, E2, <- !app_assoc.
    repeat split; auto; apply Forall_app; auto.
Qed.

Lemma appends_weaken {A} (H H' : message -> Prop) (C C' : event -> Prop)
  (m : M A) :
  (forall x, H x -> H' x) -> (forall e, C e -> C' e) ->
  appends H C m -> appends H' C' m.
Proof.
  intros HH CC Hm s. destruct (Hm s) as (hl & cl & E1 & E2 & F1 & F2).
  exists hl, cl. repeat split; auto; eapply Forall_impl; eauto.
Qed.

Lemma appends_llm_json H (C : event -> Prop) w messages :
  C (ChatCall messages) -> appends H C (llm_json w messages).
Proof.
  intros E s. destruct (llm_json_total w messages s) as (v & ->).
  exists [], [ChatCall messages]. simpl. rewrite app_nil_r. auto.
Qed.

Lemma appends_dispatch w tool_index v :
  appends not_system (known_call tool_index) (dispatch w tool_index v).
Proof.
  intros s.
  destruct (dispatch_pass w tool_index v s); simpl.
  - exists [], []. now rewrite !app_nil_r.
  - eexists [_], []. rewrite app_nil_r. repeat split; auto.
    constructor; [discriminate | constructor].
  - eexists [_], []. rewrite app_nil_r. repeat split; auto.
    constructor; [discriminate | constructor].
  - eexists [_], [_]. repeat split; auto.
    + constructor; [discriminate | constructor].
    + constructor; [simpl; auto | constructor].
  - eexists [_], [_]. repeat split; auto.
    + constructor; [discriminate | constructor].
    + constructor; [simpl; auto | constructor].
  - eexists [], [_]. rewrite app_nil_r. repeat split; auto.
    constructor; [simpl; auto | constructor].
Qed.

Lemma appends_iteration w tool_index :
  appends not_system (known_call tool_index) (iteration w tool_index).
Proof.
  intros s. destruct (llm_json_total w (history s) s) as (v & E).
  rewrite (iteration_decided _ _ _ _ _ E).
  destruct (appends_dispatch w tool_index v (record (ChatCall (history s)) s))
    as (hl & cl & E1 & E2 & F1 & F2).
  exists hl, (ChatCall (history s) :: cl). rewrite E1, E2. simpl.
  rewrite <- app_assoc. simpl. repeat split; auto.
  constructor; simpl; auto.
Qed.

Lemma appends_for_range {H C} n (body : M flow) :
  appends H C body -> appends H C (for_range n body).
Proof.
  intros Hb. induction n as [|n IH]; simpl.
  - apply appends_ret.
  - apply appends_bind; [assumption|].
    intros [|]; [assumption | apply appends_ret].
Qed.

Lemma appends_general_loop w tool_index :
  appends not_system (known_call tool_index) (general_loop w tool_index).
Proof.
  unfold general_loop. apply appends_bind.
  - apply appends_for_range, appends_iteration.
  - intros [|]; simpl.
    + apply appends_ret.
    + apply appends_history_append. discriminate.
Qed.

Lemma appends_trivia_turn w tool_index :
  appends not_system (session_call tool_index) (trivia_turn w).
Proof.
  unfold trivia_turn. apply appends_try.
  - apply appends_bind.
    + apply appends_call_tool. now right.
    + intros r. cbv zeta. apply appends_bind; [apply appends_lift|].
      intros data. apply appends_bind; [apply appends_lift|].
      intros _. apply appends_bind; [apply appends_lift|].
      intros summary. apply appends_history_append. discriminate.
  - intros e. apply appends_history_append. discriminate.
Qed.

Lemma appends_turn w tool_index user_input :
  appends not_system (session_call tool_index) (turn w tool_index user_input).
Proof.
  unfold turn. apply appends_bind.
  - apply appends_history_append. discriminate.
  - intros _. destruct (contains "trivia" (lower user_input)).
    + apply appends_trivia_turn.
    + eapply appends_weaken; [| |apply appends_general_loop]; auto.
      intros e K. now left.
Qed.

Lemma appends_session w tool_index lines :
  appends not_system (session_call tool_index) (session w tool_index lines).
Proof.
  induction lines as [|line rest IH]; simpl.
  - apply appends_raise.
  - destruct (ends_session (strip line)).
    + apply appends_ret.
    + apply appends_bind; [apply appends_turn | intros _; exact IH].
Qed.

(** *** Counting the tools invoked *)

Lemma tool_calls_app s cl :
  length (filter (fun e => negb (is_chat e)) (calls s ++ cl))
  = tool_calls s + length (filter (fun e => negb (is_chat e)) cl).
Proof. unfold tool_calls. now rewrite filter_app, length_app. Qed.

Lemma invokes_dispatch w tool_index v :
  invokes_at_most 1 (dispatch w tool_index v).
Proof.
  intros s.
  destruct (dispatch_pass w tool_index v s); cbn [state_of];
    rewrite ?tool_calls_say, ?tool_calls_record_tool; lia.
Qed.

Lemma invokes_iteration w tool_index :
  invokes_at_most 1 (iteration w tool_index).
Proof.
  intros s. rewrite iteration_dispatch. unfold bind.
  destruct (llm_json_total w (history s) s) as (v & ->).
  pose proof (invokes_dispatch w tool_index v
                (record (ChatCall (history s)) s)) as H.
  rewrite tool_calls_record_chat in H. exact H.
Qed.

Lemma invokes_for_range w tool_index n :
  invokes_at_most n (for_range n (iteration w tool_index)).
Proof.
  induction n as [|n IH]; intros s; simpl; [lia|].
  unfold bind. pose proof (invokes_iteration w tool_index s) as H.
  destruct (iteration w tool_index s) as [[|] s'|e s']; simpl in *;
    try lia.
  specialize (IH s'). lia.
Qed.

Lemma invokes_general_loop w tool_index :
  invokes_at_most 8 (general_loop w tool_index).
Proof.
  intros s. unfold general_loop, bind.
  pose proof (invokes_for_range w tool_index 8 s) as H.
  destruct (for_range 8 (iteration w tool_index) s) as [[|] s'|e s'];
    cbn [state_of negb] in *; rewrite ?history_append_say;
    cbn [state_of ret]; rewrite ?tool_calls_say; lia.
Qed.

(** *** How the loop and the turn end *)

Lemma general_loop_break w tool_index s s' :
  iteration w tool_index s = Returned Break s' ->
  general_loop w tool_index s = Returned tt s'.
Proof.
  intros E. unfold general_loop, bind. simpl for_range. unfold bind.
  rewrite E. reflexivity.
Qed.

Lemma general_loop_raise w tool_index s e s' :
  iteration w tool_index s = Raised e s' ->
  general_loop w tool_index s = Raised e s'.
Proof.
  intros E. unfold general_loop, bind. simpl for_range. unfold bind.
  rewrite E. reflexivity.
Qed.

Lemma for_range_break {n} (body : M flow) s s' :
  for_range n body s = Returned true s' ->
  exists s0, body s0 = Returned Break s'.
Proof.
  revert s; induction n as [|n IH]; intros s; simpl; [discriminate|].
  unfold bind. destruct (body s) as [[|] s1|e s1] eqn:E; try discriminate.
  - apply IH.
  - intros [= <-]. now exists s.
Qed.



(** The trivia handling always returns, with one call of the trivia tool
    and one entry. *)
Lemma trivia_turn_outcome w s :
  exists r text,
    trivia_turn w s =
    Returned tt (say r text (record (ToolCall "trivia" (JObj [])) s))
    /\ ((r = user /\ exists summary, text = "[Tool Result] " ++ summary)
        \/ (r = assistant
            /\ exists why, text = "Oops! Trivia failed: " ++ why)).
Proof.
  unfold trivia_turn, try_except, bind, session_call_tool.
  destruct (call_tool w (tool_calls s) "trivia" (JObj [])) as [res|e].
  2:{ exists assistant. eexists. split; [reflexivity|]. right. eauto. }
  fold (trivia_payload_of res).
  destruct (loads_or_raise (trivia_payload_of res)) as [e|data];
    cbn [lift raise ret].
  { exists assistant. eexists. split; [reflexivity|]. right. eauto. }
  destruct (print_trivia data) as [e|[]]; cbn [lift raise ret].
  { exists assistant. eexists. split; [reflexivity|]. right. eauto. }
  destruct (summarize_tool_result "trivia" (trivia_payload_of res))
    as [e|summary]; cbn [lift raise ret].
  { exists assistant. eexists. split; [reflexivity|]. right. eauto. }
  exists user. eexists. split; [reflexivity|]. left. eauto.
Qed.

(** *** Extras *)

(** X1.  The text [to_plain_text] gives has no whitespace left around it:
    stripping it again changes nothing, whatever the answer is. *)
Theorem to_plain_text_is_stripped answer :
  strip (to_plain_text answer) = to_plain_text answer.
Proof. destruct answer; apply strip_idempotent. Qed.



(** X3.  When the call to the model raises, the turn does not: the pass
    appends the apology with the text of the exception (stripped) as an
    assistant entry and ends the turn. *)
Theorem unreachable_model_is_answered w tool_index s e :
  chat w (chat_calls s) (history s) = Failure e ->
  let s' :=
    say assistant (strip ("Sorry, I had trouble reaching my brain: " ++ e))
      (record (ChatCall (history s)) s) in
  iteration w tool_index s = Returned Break s'
  /\ general_loop w tool_index s = Returned tt s'.
Proof.
  intros C s'.
  assert (I : iteration w tool_index s = Returned Break s').
  { pose proof (llm_json_failure _ _ _ _ C) as J.
    rewrite (iteration_decided _ _ _ _ _ J).
    unfold final. rewrite dispatch_final by reflexivity. reflexivity. }
  split; [exact I | now apply general_loop_break].
Qed.

Lemma unreachable_model_is_answered_witness :
  general_loop silent_world Server.tool_names initial =
  Returned tt
    (say assistant
       "Sorry, I had trouble reaching my brain: connection refused"
       (record (ChatCall (history initial)) initial)).
Proof.
  refine (proj2
    (unreachable_model_is_answered silent_world Server.tool_names initial
       "connection refused" _)); reflexivity.
Defined.





(** X6.  The summarizer runs outside the [try] of the loop: when a known
    tool returns and summarizing its payload raises, the exception leaves
    the pass and the loop, after the invocation and with no entry
    appended. *)
Theorem summarizer_exception_leaves_loop w tool_index s d s1 r e :
  llm_json w (history s) s = Returned (JObj d) s1 ->
  decision_is_final d = false ->
  decision_name d <> "" -> In (decision_name d) tool_index ->
  call_tool w (tool_calls s1) (decision_name d) (decision_args d) = Reply r ->
  summarize_tool_result (decision_name d) (payload_of r) = inl e ->
  let s' := record (ToolCall (decision_name d) (decision_args d)) s1 in
  iteration w tool_index s = Raised e s'
  /\ general_loop w tool_index s = Raised e s'
  /\ history s' = history s.
Proof.
  intros L F N I C S s'.
  assert (E : iteration w tool_index s = Raised e s').
  { rewrite (iteration_decided _ _ _ _ _ L).
    rewrite (dispatch_result _ _ _ _ _ F N I C). cbv zeta. now rewrite S. }
  repeat split; [exact E | now apply general_loop_raise |].
  apply llm_json_state in L. subst s' s1. reflexivity.
Qed.

Lemma summarizer_exception_leaves_loop_witness :
  general_loop list_quiz_world Server.tool_names initial =
  Raised (AttributeError "list" "get")
    (record (ToolCall "trivia" (JObj []))
       (record (ChatCall (history initial)) initial)).
Proof.
  refine (proj1 (proj2
    (summarizer_exception_leaves_loop list_quiz_world Server.tool_names
       initial [("action", JStr "trivia"); ("args", JObj [])]
       (record (ChatCall (history initial)) initial) (text_result "[]")
       (AttributeError "list" "get") _ _ _ _ _ _))).
  - reflexivity.
  - reflexivity.
  - discriminate.
  - apply mem_In. reflexivity.
  - reflexivity.
  - reflexivity.
Defined.











(** X12.  The history only grows.  A turn appends the input as a user
    entry and after it user and assistant entries only, however it ends;
    the history of a session is the system prompt followed by user and
    assistant entries only. *)
Theorem history_only_grows w :
  (forall tool_index user_input s, exists hl,
     history (state_of (turn w tool_index user_input s))
     = (history s ++ entry user user_input :: hl)%list
     /\ Forall not_system hl)
  /\ (forall lines, exists hl,
        history (state_of (main w lines)) = entry system SYSTEM :: hl
        /\ Forall not_system hl).
Proof.
  split.
  - intros tool_index user_input s. unfold turn, bind.
    rewrite history_append_say.
    assert (A : appends not_system (session_call tool_index)
                  (if contains "trivia" (lower user_input)
                   then trivia_turn w else general_loop w tool_index)).
    { destruct (contains "trivia" (lower user_input)).
      - apply appends_trivia_turn.
      - eapply appends_weaken; [| |apply appends_general_loop]; auto.
        intros e K. now left. }
    destruct (A (say user user_input s)) as (hl & cl & E & _ & F & _).
    exists hl. rewrite E. unfold say; simpl. rewrite <- app_assoc. auto.
  - intros lines. unfold main.
    destruct (appends_session w (list_tools w) lines initial)
      as (hl & cl & E & _ & F & _).
    exists hl. rewrite E. auto.
Qed.

(** X13.  The general loop invokes no tool but those fetched at the start,
    under a name that is not empty; the only other invocation of a session
    is the one of the trivia tool, without arguments, by the trivia
    handling. *)
Theorem only_fetched_tools_are_invoked w :
  (forall tool_index s, exists cl,
     calls (state_of (general_loop w tool_index s)) = (calls s ++ cl)%list
     /\ Forall (known_call tool_index) cl)
  /\ (forall lines,
        Forall (session_call (list_tools w)) (calls (state_of (main w lines)))).
Proof.
  split.
  - intros tool_index s.
    destruct (appends_general_loop w tool_index s) as (hl & cl & _ & E & _ & F).
    eauto.
  - intros lines. unfold main.
    destruct (appends_session w (list_tools w) lines initial)
      as (hl & cl & _ & E & _ & F).
    rewrite E. exact F.
Qed.

(** X14.  An input that mentions trivia is handled without looking at the
    fetched tools: whatever they are, the turn invokes the tool named
    trivia once, with no arguments, and returns with one entry after the
    input, the tool result as a user entry or the failure as an assistant
    entry. *)
Theorem trivia_handling_always_returns w tool_index user_input s :
  contains "trivia" (lower user_input) = true ->
  exists r text,
    turn w tool_index user_input s =
    Returned tt
      {| history := history s ++ [entry user user_input; entry r text];
         calls := calls s ++ [ToolCall "trivia" (JObj [])] |}
    /\ ((r = user /\ exists summary, text = "[Tool Result] " ++ summary)
        \/ (r = assistant
            /\ exists why, text = "Oops! Trivia failed: " ++ why)).
Proof.
  intros T. unfold turn, bind. rewrite history_append_say, T.
  destruct (trivia_turn_outcome w (say user user_input s))
    as (r & text & E & K).
  exists r, text. split; [|exact K].
  rewrite E. unfold say, record; cbn [history calls].
  now rewrite <- app_assoc.
Qed.

Lemma trivia_handling_always_returns_witness :
  exists r text,
    turn quiz_world [] "trivia!" initial =
    Returned tt
      {| history := history initial ++ [entry user "trivia!"; entry r text];
         calls := calls initial ++ [ToolCall "trivia" (JObj [])] |}
    /\ ((r = user /\ exists summary, text = "[Tool Result] " ++ summary)
        \/ (r = assistant
            /\ exists why, text = "Oops! Trivia failed: " ++ why)).
Proof.
  refine (trivia_handling_always_returns quiz_world [] "trivia!" initial _).
  reflexivity.
Defined.

(** X15.  One tool at a time: a pass invokes at most one tool and a turn at
    most 8, however they end. *)
Theorem at_most_one_tool_per_pass w tool_index :
  (forall s,
     tool_calls (state_of (iteration w tool_index s)) <= tool_calls s + 1)
  /\ (forall user_input s,
        tool_calls (state_of (turn w tool_index user_input s))
        <= tool_calls s + 8).
Proof.
  split; [apply invokes_iteration|].
  intros user_input s. unfold turn, bind. rewrite history_append_say.
  destruct (contains "trivia" (lower user_input)).
  - destruct (trivia_turn_outcome w (say user user_input s))
      as (r & text & -> & _).
    cbn [state_of].
    rewrite tool_calls_say, tool_calls_record_tool, tool_calls_say. lia.
  - pose proof (invokes_general_loop w tool_index (say user user_input s)) as H.
    rewrite tool_calls_say in H. exact H.
Qed.

(** X16.  When the general loop returns, the last entry of the history is
    the assistant's: the final answer, the unknown tool or the step limit.
    The next turn starts after an assistant entry. *)
Theorem returned_loop_ends_with_assistant w tool_index s s' :
  general_loop w tool_index s = Returned tt s' ->
  exists before text,
    history s' = (before ++ [entry assistant text])%list.
Proof.
  unfold general_loop, bind.
  destruct (for_range 8 (iteration w tool_index) s) as [[|] s1|e s1] eqn:R;
    try discriminate; cbn [negb].
  - intros [= <-]. apply for_range_break in R. destruct R as (s0 & R).
    destruct (iteration_pass w tool_index s0) as (v & _ & P).
    rewrite R in P. inversion P; subst; eexists; eexists; reflexivity.
  - rewrite history_append_say. intros [= <-].
    eexists; eexists; reflexivity.
Qed.

Lemma returned_loop_ends_with_assistant_witness :
  exists before text,
    history
      (say assistant COULD_NOT_FINISH
         (state_of
            (for_range 8 (iteration joker_world Server.tool_names) initial)))
    = (before ++ [entry assistant text])%list.
Proof.
  refine (returned_loop_ends_with_assistant joker_world Server.tool_names
            initial _ _).
  vm_compute. reflexivity.
Defined.

(** X17.  The trivia tool uses the first question only.  Its choices are
    the unescaped incorrect answers in their order followed by the
    unescaped correct answer, which is also the answer: one more choice
    than there are incorrect answers, nothing removed.  Without a question
    the result is the failure. *)
Theorem trivia_choices_end_with_answer unescape :
  Server.trivia unescape []
  = JObj [("ok", JBool false); ("error", JStr "no trivia")]
  /\ forall q rest, exists d choices,
       Server.trivia unescape (q :: rest) = JObj d
       /\ lookup "ok" d = Some (JBool true)
       /\ lookup "choices" d = Some (JArr choices)
       /\ lookup "answer" d
          = Some (JStr (unescape (Server.correct_answer q)))
       /\ length choices = S (length (Server.incorrect_answers q))
       /\ last choices JNull = JStr (unescape (Server.correct_answer q))
       /\ firstn (length (Server.incorrect_answers q)) choices
          = map (fun x => JStr (unescape x)) (Server.incorrect_answers q).
Proof.
  split; [reflexivity|].
  intros q rest. eexists. eexists. split; [reflexivity|].
  repeat split.
  - rewrite length_app, length_map. simpl. lia.
  - apply last_last.
  - rewrite <- (length_map (fun x => JStr (unescape x))).
    rewrite firstn_app, firstn_all, Nat.sub_diag. simpl.
    apply app_nil_r.
Qed.

(** X18.  The book tool gives one pick per document, in the order of the
    documents, and every pick has an author: the first name of the
    document, or Unknown when the document has no list of names or an
    empty one. *)
Theorem book_recs_one_pick_per_doc topic docs :
  exists m picks,
    Books.book_recs topic docs = JObj m
    /\ lookup "topic" m = Some (JStr topic)
    /\ lookup "results" m = Some (JArr picks)
    /\ length picks = length docs
    /\ forall i d, nth_error docs i = Some d ->
         exists p,
           nth_error picks i = Some (JObj p)
           /\ lookup "author" p
              = Some (JStr (match Books.author_name d with
                            | Some (a :: _) => a
                            | _ => "Unknown"
                            end)).
Proof.
  eexists. eexists. split; [reflexivity|]. repeat split.
  - apply length_map.
  - intros i d E. eexists. split.
    + rewrite nth_error_map, E. reflexivity.
    + simpl. unfold Books.first_author.
      destruct (Books.author_name d) as [[|a l]|]; reflexivity.
Qed.

Lemma book_recs_one_pick_per_doc_example :
  Books.book_recs "epic" [anonymous_book] =
  JObj [("ok", JBool true); ("topic", JStr "epic");
        ("results",
         JArr [JObj [("title", JStr "Beowulf"); ("author", JStr "Unknown");
                     ("year", JNull); ("work", JStr "/works/OL1W")]])].
Proof. reflexivity. Qed.

(** X19.  Nothing is read after the line that ends the session: the lines
    that follow it do not change the result. *)
Theorem lines_after_the_end_are_not_read
  w tool_index before line after after' s :
  ends_session (strip line) = true ->
  session w tool_index (before ++ line :: after) s
  = session w tool_index (before ++ line :: after') s.
Proof.
  intros E. revert s. induction before as [|l before IH]; intros s; simpl.
  - now rewrite E.
  - destruct (ends_session (strip l)); [reflexivity|].
    unfold bind. destruct (turn w tool_index (strip l) s); [apply IH|].
    reflexivity.
Qed.

Lemma lines_after_the_end_are_not_read_witness :
  session chatty_world Server.tool_names (["hi"] ++ "quit" :: ["later"]) initial
  = session chatty_world Server.tool_names (["hi"] ++ "quit" :: []) initial.
Proof.
  refine (lines_after_the_end_are_not_read chatty_world Server.tool_names
            ["hi"] "quit" ["later"] [] initial _).
  reflexivity.
Defined.

